(** * Offline-first task synchronisation: TaskService and SyncService

    A shallow embedding of [services/taskService.ts], [services/syncService.ts]
    and the array code of [SyncService.sync].  The two SQL tables are lists of
    rows in insertion order; every SQL statement of the source is rendered as
    the list operation it denotes.  The clock ([new Date()]), the identifier
    generator ([uuidv4()]) and the HTTP client ([axios.post]) are oracles that
    the services read through counters kept in the world state. *)

From Stdlib Require Import String List ZArith Bool Lia Permutation Sorted.
Import ListNotations.

Local Open Scope string_scope.
Local Open Scope list_scope.
Local Open Scope Z_scope.

(** ** JavaScript values and objects *)

(** A [Date] is carried as the text [toISOString()] gives for it, which is
    also what the tables store. *)
Definition Date := string.

Inductive jsval :=
| JUndefined
| JNull
| JBool (b : bool)
| JNum (n : Z)
| JStr (s : string).

(** An object: own enumerable properties in insertion order. *)
Definition jsobj := list (string * jsval).

Fixpoint js_get (k : string) (o : jsobj) : jsval :=
  match o with
  | [] => JUndefined
  | (k', v) :: o' => if String.eqb k' k then v else js_get k o'
  end.

Fixpoint js_set (k : string) (v : jsval) (o : jsobj) : jsobj :=
  match o with
  | [] => [(k, v)]
  | (k', v') :: o' =>
      if String.eqb k' k then (k, v) :: o' else (k', v') :: js_set k v o'
  end.

(** [{...o, ...o2}] *)
Definition js_spread (o o2 : jsobj) : jsobj :=
  fold_left (fun acc kv => js_set (fst kv) (snd kv) acc) o2 o.

Definition truthy (v : jsval) : bool :=
  match v with
  | JUndefined | JNull => false
  | JBool b => b
  | JNum n => negb (n =? 0)
  | JStr s => negb (String.eqb s EmptyString)
  end.

(** [JSON.stringify] of a flat object: the members that survive, i.e. all but
    the ones whose value is [undefined].  The text itself is not modelled. *)
Definition JSON_stringify (o : jsobj) : jsobj :=
  filter (fun kv => match snd kv with JUndefined => false | _ => true end) o.

(** A statement parameter bound to a TEXT column.  [undefined] and [null] are
    stored as NULL; [Partial<Task>] admits nothing but strings besides. *)
Definition bind_text (v : jsval) : option string :=
  match v with
  | JStr s => Some s
  | _ => None
  end.

Definition of_text (v : option string) : jsval :=
  match v with
  | Some s => JStr s
  | None => JNull
  end.

(** [x || d] on an optional string: [undefined], [null] and the empty string
    are falsy. *)
Definition or_default (x : option string) (d : string) : string :=
  match x with
  | Some s => if String.eqb s EmptyString then d else s
  | None => d
  end.

(** ** Rows and interface types *)

(** The [Task] interface of [types].  An optional member that is absent,
    [undefined] or [null] reads [None]; where the difference shows (the text
    [JSON.stringify] writes), the code below works on the object itself. *)
Module Task.
Record t := mk {
  id : string;
  title : option string;
  description : option string;
  completed : bool;
  created_at : Date;
  updated_at : Date;
  is_deleted : bool;
  sync_status : option string;
  server_id : option string;
  last_synced_at : option Date
}.

End Task.

(** A row of the [tasks] table. *)
Module TaskRow.
Record t := mk {
  id : string;
  title : option string;
  description : option string;
  completed : Z;
  created_at : string;
  updated_at : string;
  is_deleted : Z;
  sync_status : string;
  server_id : option string;
  last_synced_at : option string
}.

(** The object [db.get] / [db.all] hands back for a row. *)
Definition to_object (r : t) : jsobj :=
  [("id", JStr (id r));
   ("title", of_text (title r));
   ("description", of_text (description r));
   ("completed", JNum (completed r));
   ("created_at", JStr (created_at r));
   ("updated_at", JStr (updated_at r));
   ("is_deleted", JNum (is_deleted r));
   ("sync_status", JStr (sync_status r));
   ("server_id", of_text (server_id r));
   ("last_synced_at", of_text (last_synced_at r))].

(** The object literal [getTask] and [getAllTasks] build from a row. *)
Definition to_task (r : t) : Task.t :=
  Task.mk (id r) (title r) (description r) (completed r =? 1)
          (created_at r) (updated_at r) (is_deleted r =? 1)
          (Some (sync_status r)) (server_id r)
          (match last_synced_at r with
           | Some s => if String.eqb s EmptyString then None else Some s
           | None => None
           end).

(** SET clauses of the UPDATE statements of the two services. *)

(** [SET title = ?, description = ?, completed = ?, updated_at = ?, sync_status = ?] *)
Definition set_edit (ti de : option string) (co : Z) (up st : string) (r : t) : t :=
  mk (id r) ti de co (created_at r) up (is_deleted r) st
     (server_id r) (last_synced_at r).

(** [SET is_deleted = 1, updated_at = ?, sync_status = ?] *)
Definition set_deleted (up st : string) (r : t) : t :=
  mk (id r) (title r) (description r) (completed r) (created_at r) up 1 st
     (server_id r) (last_synced_at r).

(** [SET title = ?, description = ?, completed = ?, updated_at = ?, server_id = ?] *)
Definition set_resolved (ti de : option string) (co : Z) (up : string)
           (sv : option string) (r : t) : t :=
  mk (id r) ti de co (created_at r) up (is_deleted r) (sync_status r)
     sv (last_synced_at r).

(** [SET sync_status = ?, last_synced_at = ?] *)
Definition set_status_synced_at (st : string) (at_ : string) (r : t) : t :=
  mk (id r) (title r) (description r) (completed r) (created_at r)
     (updated_at r) (is_deleted r) st (server_id r) (Some at_).

(** [SET server_id = ?] *)
Definition set_server_id (sv : string) (r : t) : t :=
  mk (id r) (title r) (description r) (completed r) (created_at r)
     (updated_at r) (is_deleted r) (sync_status r) (Some sv)
     (last_synced_at r).

(** [SET sync_status = ?] *)
Definition set_status (st : string) (r : t) : t :=
  mk (id r) (title r) (description r) (completed r) (created_at r)
     (updated_at r) (is_deleted r) st (server_id r) (last_synced_at r).
End TaskRow.

(** A row of the [sync_queue] table, which [sync] types as [SyncQueueItem]. *)
Module SyncQueueItem.
Record t := mk {
  id : string;
  task_id : string;
  operation : string;
  data : jsobj;
  created_at : string;
  retry_count : Z;
  error_message : option string
}.

(** [SET retry_count = ?, error_message = ?] *)
Definition set_retry (n : Z) (msg : string) (q : t) : t :=
  mk (id q) (task_id q) (operation q) (data q) (created_at q) n (Some msg).
End SyncQueueItem.

(** One entry of [BatchSyncResponse.processed_items], at its declared type:
    the resolved data is a [Task], whose [updated_at] is a [Date]. *)
Module Processed.
Record t := mk {
  client_id : string;
  server_id : option string;
  status : string;
  resolved_data : option Task.t;
  error : option string
}.
End Processed.

Record BatchSyncRequest := mkRequest {
  items : list SyncQueueItem.t;
  client_timestamp : Date
}.

Record BatchSyncResponse := mkResponse {
  processed_items : list Processed.t
}.

(** One entry of [SyncResult.errors]. *)
Module SyncError.
Record t := mk {
  task_id : string;
  operation : string;
  error : string;
  timestamp : Date
}.
End SyncError.

Record SyncResult := mkResult {
  success : bool;
  synced_items : nat;
  failed_items : nat;
  errors : list SyncError.t
}.

(** ** The world the services run in *)

Record World := mkWorld {
  tasks : list TaskRow.t;
  sync_queue : list SyncQueueItem.t;
  clock_reads : nat;                 (* how many times [new Date()] ran *)
  uuid_reads : nat;                  (* how many times [uuidv4()] ran *)
  http_log : list BatchSyncRequest   (* requests posted to [/batch], oldest first *)
}.

Definition with_tasks (ts : list TaskRow.t) (w : World) : World :=
  mkWorld ts (sync_queue w) (clock_reads w) (uuid_reads w) (http_log w).

Definition with_sync_queue (qs : list SyncQueueItem.t) (w : World) : World :=
  mkWorld (tasks w) qs (clock_reads w) (uuid_reads w) (http_log w).

(** ** SQL statements *)

(** [UPDATE tasks SET ... WHERE id = ?] *)
Definition update_tasks (set : TaskRow.t -> TaskRow.t) (id : string)
           (rows : list TaskRow.t) : list TaskRow.t :=
  map (fun r => if String.eqb (TaskRow.id r) id then set r else r) rows.

(** [UPDATE sync_queue SET ... WHERE id = ?] *)
Definition update_sync_queue (set : SyncQueueItem.t -> SyncQueueItem.t)
           (id : string) (rows : list SyncQueueItem.t) : list SyncQueueItem.t :=
  map (fun q => if String.eqb (SyncQueueItem.id q) id then set q else q) rows.

(** [DELETE FROM sync_queue WHERE task_id = ?] *)
Definition delete_sync_queue_by_task (taskId : string)
           (rows : list SyncQueueItem.t) : list SyncQueueItem.t :=
  filter (fun q => negb (String.eqb (SyncQueueItem.task_id q) taskId)) rows.

(** [SELECT * FROM tasks WHERE id = ?] through [db.get]: the first match. *)
Definition select_task (id : string) (rows : list TaskRow.t) : option TaskRow.t :=
  find (fun r => String.eqb (TaskRow.id r) id) rows.

(** [SELECT * FROM tasks WHERE id = ? AND is_deleted = 0] through [db.get]. *)
Definition select_live_task (id : string) (rows : list TaskRow.t)
  : option TaskRow.t :=
  find (fun r => String.eqb (TaskRow.id r) id && (TaskRow.is_deleted r =? 0)) rows.

(** Modelled from the spec: the database layer ([db/database] and the SQL
    engine under it) is not part of the sources.  [ORDER BY created_at] is
    rendered as the spec's [drain()] has it: ascending on the stored text,
    rows with equal keys staying in insertion order.  The text of the column
    is compared as SQL compares TEXT, byte by byte. *)
Fixpoint insert_by_created_at (q : SyncQueueItem.t) (rows : list SyncQueueItem.t)
  : list SyncQueueItem.t :=
  match rows with
  | [] => [q]
  | r :: rows' =>
      if String.leb (SyncQueueItem.created_at q) (SyncQueueItem.created_at r)
      then q :: r :: rows'
      else r :: insert_by_created_at q rows'
  end.

(** Modelled from the spec: [... ORDER BY created_at] over the rows of the
    table in insertion order, by the insertion above. *)
Definition order_by_created_at (rows : list SyncQueueItem.t)
  : list SyncQueueItem.t :=
  fold_right insert_by_created_at [] rows.

(** ** Array code of [sync] *)

(** [Array.prototype.slice(start, end)] with its relative-index rule. *)
Definition rel_index (len k : Z) : Z :=
  if k <? 0 then Z.max (len + k) 0 else Z.min k len.

Definition slice {A : Type} (l : list A) (start stop : Z) : list A :=
  let len := Z.of_nat (length l) in
  let k := rel_index len start in
  let e := rel_index len stop in
  firstn (Z.to_nat (e - k)) (skipn (Z.to_nat k) l).

(** [for (let i = 0; i < queueItems.length; i += batchSize)
       batches.push(queueItems.slice(i, i + batchSize))]
    entered at index [i].  Each turn of the loop spends one unit of fuel;
    [None] means the fuel ran out before the loop condition failed. *)
Fixpoint batches_from {A : Type} (fuel : nat) (queueItems : list A)
         (batchSize i : Z) : option (list (list A)) :=
  if i <? Z.of_nat (length queueItems) then
    match fuel with
    | O => None
    | S fuel' =>
        match batches_from fuel' queueItems batchSize (i + batchSize) with
        | Some rest => Some (slice queueItems i (i + batchSize) :: rest)
        | None => None
        end
    end
  else Some [].

(** ** The services *)

(** Loop variables of [sync]. *)
Record Tally := mkTally {
  syncedItems : nat;
  failedItems : nat;
  errs : list SyncError.t
}.

Section Services.

(** The value of the [n]-th [new Date()]. *)
Variable clock : nat -> Date.
(** The value of the [n]-th [uuidv4()]. *)
Variable uuidv4 : nat -> string.
(** [axios.post(`${apiUrl}/batch`, request)] for the [n]-th request of the
    run: it throws an [Error] with the given message, or resolves with the
    response data. *)
Variable axios_post : nat -> BatchSyncRequest -> string + BatchSyncResponse.

Definition new_Date (w : World) : Date * World :=
  (clock (clock_reads w),
   mkWorld (tasks w) (sync_queue w) (S (clock_reads w)) (uuid_reads w)
           (http_log w)).

Definition new_uuid (w : World) : string * World :=
  (uuidv4 (uuid_reads w),
   mkWorld (tasks w) (sync_queue w) (clock_reads w) (S (uuid_reads w))
           (http_log w)).

(** [INSERT INTO sync_queue (id, task_id, operation, data, created_at, retry_count)] *)
Definition insert_sync_queue (id taskId op : string) (data : jsobj)
           (createdAt : string) (retries : Z) (w : World) : World :=
  with_sync_queue
    (sync_queue w
       ++ [SyncQueueItem.mk id taskId op data createdAt retries None]) w.

(** *** TaskService *)

Definition createTask (taskData : jsobj) (w : World) : Task.t * World :=
  let (id, w1) := new_uuid w in
  let (now, w2) := new_Date w1 in
  let task :=
    Task.mk id (bind_text (js_get "title" taskData))
            (bind_text (js_get "description" taskData))
            false now now false (Some "pending") None None in
  let w3 :=
    with_tasks
      (tasks w2
         ++ [TaskRow.mk (Task.id task) (Task.title task)
               (Task.description task)
               (if Task.completed task then 1 else 0)
               (Task.created_at task) (Task.updated_at task)
               (if Task.is_deleted task then 1 else 0)
               "pending" None None]) w2 in
  let (qid, w4) := new_uuid w3 in
  (task,
   insert_sync_queue qid (Task.id task) "create"
     (JSON_stringify
        [("id", JStr id);
         ("title", js_get "title" taskData);
         ("description", js_get "description" taskData);
         ("completed", JBool false);
         ("created_at", JStr now);
         ("updated_at", JStr now);
         ("is_deleted", JBool false);
         ("sync_status", JStr "pending")])
     (Task.created_at task) 0 w4).

Definition updateTask (id : string) (updates : jsobj) (w : World)
  : option jsobj * World :=
  match select_live_task id (tasks w) with
  | None => (None, w)
  | Some existingTask =>
      let (now, w1) := new_Date w in
      let updatedTask :=
        js_spread
          (js_spread (TaskRow.to_object existingTask) updates)
          [("updated_at", JStr now); ("sync_status", JStr "pending")] in
      let w2 :=
        with_tasks
          (update_tasks
             (TaskRow.set_edit
                (bind_text (js_get "title" updatedTask))
                (bind_text (js_get "description" updatedTask))
                (if truthy (js_get "completed" updatedTask) then 1 else 0)
                now "pending")
             id (tasks w1)) w1 in
      let (qid, w3) := new_uuid w2 in
      (Some updatedTask,
       insert_sync_queue qid id "update" (JSON_stringify updatedTask) now 0 w3)
  end.

Definition deleteTask (id : string) (w : World) : bool * World :=
  match select_live_task id (tasks w) with
  | None => (false, w)
  | Some _ =>
      let (now, w1) := new_Date w in
      let w2 :=
        with_tasks
          (update_tasks (TaskRow.set_deleted now "pending") id (tasks w1)) w1 in
      let (qid, w3) := new_uuid w2 in
      (true,
       insert_sync_queue qid id "delete"
         [("id", JStr id); ("is_deleted", JBool true); ("updated_at", JStr now)]
         now 0 w3)
  end.

Definition getTask (id : string) (w : World) : option Task.t :=
  match select_task id (tasks w) with
  | None => None
  | Some task =>
      if TaskRow.is_deleted task =? 1 then None
      else Some (TaskRow.to_task task)
  end.

Definition getAllTasks (w : World) : list Task.t :=
  map TaskRow.to_task
      (filter (fun r => TaskRow.is_deleted r =? 0) (tasks w)).

Definition getTasksNeedingSync (w : World) : list Task.t :=
  map TaskRow.to_task
      (filter (fun r => String.eqb (TaskRow.sync_status r) "pending"
                        || String.eqb (TaskRow.sync_status r) "error")
              (tasks w)).

(** *** SyncService *)

Definition addToSyncQueue (taskId operation : string) (data : jsobj)
           (w : World) : World :=
  let (qid, w1) := new_uuid w in
  let (createdAt, w2) := new_Date w1 in
  insert_sync_queue qid taskId operation (JSON_stringify data) createdAt 0 w2.

Definition updateSyncStatus (taskId status : string)
           (serverData : option Task.t) (w : World) : World :=
  let (now, w1) := new_Date w in
  let w2 :=
    with_tasks
      (update_tasks (TaskRow.set_status_synced_at status now) taskId
                    (tasks w1)) w1 in
  let w3 :=
    match serverData with
    | Some d =>
        match Task.server_id d with
        | Some sv =>
            if String.eqb sv EmptyString then w2
            else with_tasks
                   (update_tasks (TaskRow.set_server_id sv) taskId (tasks w2))
                   w2
        | None => w2
        end
    | None => w2
    end in
  if String.eqb status "synced"
  then with_sync_queue (delete_sync_queue_by_task taskId (sync_queue w3)) w3
  else w3.

Definition handleSyncError (item : SyncQueueItem.t) (message : string)
           (w : World) : World :=
  let newRetryCount := SyncQueueItem.retry_count item + 1 in
  let w1 :=
    with_sync_queue
      (update_sync_queue (SyncQueueItem.set_retry newRetryCount message)
                         (SyncQueueItem.id item) (sync_queue w)) w in
  if 3 <=? newRetryCount
  then with_tasks
         (update_tasks (TaskRow.set_status "error")
                       (SyncQueueItem.task_id item) (tasks w1)) w1
  else w1.

(** Step 4 of [processBatch], for one processed item. *)
Definition apply_conflict (w : World) (p : Processed.t) : World :=
  if String.eqb (Processed.status p) "conflict" then
    match Processed.resolved_data p with
    | Some d =>
        with_tasks
          (update_tasks
             (TaskRow.set_resolved (Task.title d) (Task.description d)
                (if Task.completed d then 1 else 0) (Task.updated_at d)
                (Processed.server_id p))
             (Processed.client_id p) (tasks w)) w
    | None => w
    end
  else w.

Definition processBatch (batch : list SyncQueueItem.t) (w : World)
  : (string + BatchSyncResponse) * World :=
  let (now, w1) := new_Date w in
  let batchRequest := mkRequest batch now in
  let w2 :=
    mkWorld (tasks w1) (sync_queue w1) (clock_reads w1) (uuid_reads w1)
            (http_log w1 ++ [batchRequest]) in
  match axios_post (length (http_log w1)) batchRequest with
  | inl message => (inl message, w2)
  | inr batchResponse =>
      (inr batchResponse,
       fold_left apply_conflict (processed_items batchResponse) w2)
  end.

(** Body of [for (const processedItem of batchResponse.processed_items)]. *)
Definition handle_processed (batch : list SyncQueueItem.t)
           (st : Tally * World) (p : Processed.t) : Tally * World :=
  let (c, w) := st in
  if String.eqb (Processed.status p) "success" then
    (mkTally (S (syncedItems c)) (failedItems c) (errs c),
     updateSyncStatus (Processed.client_id p) "synced"
                      (Processed.resolved_data p) w)
  else
    let operation :=
      or_default
        (option_map SyncQueueItem.operation
           (find (fun item => String.eqb (SyncQueueItem.task_id item)
                                         (Processed.client_id p)) batch))
        "unknown" in
    let (now, w1) := new_Date w in
    (mkTally (syncedItems c) (S (failedItems c))
             (errs c ++ [SyncError.mk (Processed.client_id p) operation
                           (or_default (Processed.error p) "Unknown error")
                           now]),
     updateSyncStatus (Processed.client_id p) "error" None w1).

(** Body of [for (const item of batch)] in the [catch] clause. *)
Definition handle_thrown (message : string) (st : list SyncError.t * World)
           (item : SyncQueueItem.t) : list SyncError.t * World :=
  let (es, w) := st in
  let w1 := handleSyncError item message w in
  let (now, w2) := new_Date w1 in
  (es ++ [SyncError.mk (SyncQueueItem.task_id item)
            (SyncQueueItem.operation item) message now],
   w2).

(** Body of [for (const batch of batches)]: the [try] and its [catch]. *)
Definition run_batch (st : Tally * World) (batch : list SyncQueueItem.t)
  : Tally * World :=
  let (c, w) := st in
  match processBatch batch w with
  | (inr batchResponse, w1) =>
      fold_left (handle_processed batch) (processed_items batchResponse)
                (c, w1)
  | (inl message, w1) =>
      let (es, w2) :=
        fold_left (handle_thrown message) batch (errs c, w1) in
      (mkTally (syncedItems c) (failedItems c + length batch) es, w2)
  end.

(** [sync()], given the value [parseInt] returned for the batch size.  The
    result is [None] when the batching loop does not finish within [fuel]
    turns. *)
Definition sync (fuel : nat) (batchSize : Z) (w : World)
  : option (SyncResult * World) :=
  let queueItems := order_by_created_at (sync_queue w) in
  match batches_from fuel queueItems batchSize 0 with
  | None => None
  | Some batches =>
      let (c, w') :=
        fold_left run_batch batches (mkTally 0 0 [], w) in
      Some (mkResult (Nat.eqb (failedItems c) 0) (syncedItems c)
                     (failedItems c) (errs c),
            w')
  end.

End Services.

(** ** Predicates used in the statements *)

(** Every group but the last holds exactly [batchSize] items. *)
Fixpoint full_but_last {A : Type} (batchSize : Z) (gs : list (list A)) : Prop :=
  match gs with
  | [] => True
  | g :: gs' =>
      match gs' with
      | [] => True
      | _ :: _ => Z.of_nat (length g) = batchSize
      end /\ full_but_last batchSize gs'
  end.

(** Non-decreasing [created_at], as the column text compares. *)
Definition created_at_le (a b : SyncQueueItem.t) : Prop :=
  String.leb (SyncQueueItem.created_at a) (SyncQueueItem.created_at b) = true.

(** The rows enqueued at the instant [ts], in the order the list has them. *)
Definition enqueued_at (ts : string) (rows : list SyncQueueItem.t)
  : list SyncQueueItem.t :=
  filter (fun q => String.eqb (SyncQueueItem.created_at q) ts) rows.

(** The queue of [w] still holds a row with the identifier and task of [q]. *)
Definition still_queued (q : SyncQueueItem.t) (w : World) : Prop :=
  exists q', In q' (sync_queue w)
             /\ SyncQueueItem.id q' = SyncQueueItem.id q
             /\ SyncQueueItem.task_id q' = SyncQueueItem.task_id q.

(** No answer of the transport reports [success] for the task [taskId]. *)
Definition never_confirmed
           (axios_post : nat -> BatchSyncRequest -> string + BatchSyncResponse)
           (taskId : string) : Prop :=
  forall n req resp p,
    axios_post n req = inr resp ->
    In p (processed_items resp) ->
    Processed.status p = "success" ->
    Processed.client_id p <> taskId.

(** The [server_id] that [updateSyncStatus] writes for the server data it is
    given: the one the data carries, unless it is missing or empty. *)
Definition recorded_server_id (serverData : option Task.t) : option string :=
  match serverData with
  | Some d =>
      match Task.server_id d with
      | Some sv => if String.eqb sv EmptyString then None else Some sv
      | None => None
      end
  | None => None
  end.

(** ** Sample data *)

(** A clock that advances one second per reading. *)
Definition tick (n : nat) : Date :=
  match n with
  | 0%nat => "2024-06-10T12:00:00.000Z"
  | 1%nat => "2024-06-10T12:00:01.000Z"
  | 2%nat => "2024-06-10T12:00:02.000Z"
  | 3%nat => "2024-06-10T12:00:03.000Z"
  | 4%nat => "2024-06-10T12:00:04.000Z"
  | _ => "2024-06-10T12:00:05.000Z"
  end.

Definition next_id (n : nat) : string :=
  match n with
  | 0%nat => "id-0"
  | 1%nat => "id-1"
  | _ => "id-2"
  end.

(** A transport whose every request fails. *)
Definition offline (_ : nat) (_ : BatchSyncRequest)
  : string + BatchSyncResponse :=
  inl "Network Error".

(** A transport that answers every request with the given outcomes. *)
Definition answering (ps : list Processed.t) (_ : nat) (_ : BatchSyncRequest)
  : string + BatchSyncResponse :=
  inr (mkResponse ps).

(** Task [R], last edited on 2 June. *)
Definition task_R (status : string) : TaskRow.t :=
  TaskRow.mk "R" (Some "A") None 0 "2024-06-01T09:00:00.000Z"
             "2024-06-02T09:00:00.000Z" 0 status None None.

Definition task_S : TaskRow.t :=
  TaskRow.mk "S" (Some "B") None 0 "2024-06-01T10:00:00.000Z"
             "2024-06-01T10:00:00.000Z" 0 "pending" None None.

(** Two queued updates of [R] and one of [S]. *)
Definition item_q1 (retries : Z) : SyncQueueItem.t :=
  SyncQueueItem.mk "q1" "R" "update" [("id", JStr "R"); ("title", JStr "A")]
                   "2024-06-02T09:00:00.000Z" retries None.

Definition item_q2 : SyncQueueItem.t :=
  SyncQueueItem.mk "q2" "R" "update" [("id", JStr "R"); ("completed", JBool true)]
                   "2024-06-02T09:00:00.000Z" 0 None.

Definition item_q3 : SyncQueueItem.t :=
  SyncQueueItem.mk "q3" "S" "create" [("id", JStr "S"); ("title", JStr "B")]
                   "2024-06-01T10:00:00.000Z" 0 None.

Definition world_of (ts : list TaskRow.t) (qs : list SyncQueueItem.t) : World :=
  mkWorld ts qs 0 0 [].

(** What the authority holds for [R]: edited on 1 June, a day before the
    local edit. *)
Definition authority_R : Task.t :=
  Task.mk "R" (Some "Z") (Some "from the authority") true
          "2024-06-01T09:00:00.000Z" "2024-06-01T09:00:00.000Z" false
          None None None.

Definition conflict_R : Processed.t :=
  Processed.mk "R" (Some "srv-1") "conflict" (Some authority_R) None.

Definition success_R : Processed.t :=
  Processed.mk "R" (Some "srv-1") "success" None None.

Definition error_R : Processed.t :=
  Processed.mk "R" None "error" None (Some "Processing failed").

(** A transport that answers its first request with the given outcomes and
    fails from then on. *)
Definition answering_once (ps : list Processed.t) (n : nat)
           (_ : BatchSyncRequest) : string + BatchSyncResponse :=
  match n with
  | O => inr (mkResponse ps)
  | S _ => inl "Network Error"
  end.

(** Task [D], soft-deleted. *)
Definition task_D : TaskRow.t :=
  TaskRow.mk "D" (Some "C") None 0 "2024-06-01T11:00:00.000Z"
             "2024-06-03T11:00:00.000Z" 1 "pending" None None.

(** ** Data as it crosses HTTP *)

(** [axios] hands over a response body as parsed JSON, and the [/batch] route
    reads its request body the same way.  JSON has no [Date]: an instant
    arrives as the text [toJSON] printed for it. *)
Module Wire.
(** One entry of [processed_items] as received.  [resolved_data] is the object
    the member holds, [None] when the member is absent or [null]. *)
Record outcome := mkOutcome {
  client_id : string;
  server_id : option string;
  status : string;
  resolved_data : option jsobj;
  error : option string
}.

(** The [data] member of a posted item: missing, a string (what [sync] posts,
    the column text of the row, given here by the members that text encodes)
    or an object. *)
Inductive payload :=
| NoData
| Text (encoded : jsobj)
| Object (o : jsobj).

(** One entry of [items] in the body of [POST /batch]; [created_at] is an
    instant in ISO text, as [sync] posts it. *)
Record item := mkItem {
  task_id : string;
  data : payload;
  created_at : Date
}.
End Wire.

(** [v.toISOString()] on a value parsed from JSON.  None of them is a [Date]:
    the call throws a [TypeError], with the message given. *)
Definition toISOString (v : jsval) : string + Date :=
  match v with
  | JUndefined => inl "Cannot read properties of undefined (reading 'toISOString')"
  | JNull => inl "Cannot read properties of null (reading 'toISOString')"
  | _ => inl "processedItem.resolved_data.updated_at.toISOString is not a function"
  end.

(** The resolved data of an outcome read as a [Partial<Task>]. *)
Definition as_task (d : jsobj) : Task.t :=
  Task.mk (or_default (bind_text (js_get "id" d)) EmptyString)
          (bind_text (js_get "title" d))
          (bind_text (js_get "description" d))
          (truthy (js_get "completed" d))
          (or_default (bind_text (js_get "created_at" d)) EmptyString)
          (or_default (bind_text (js_get "updated_at" d)) EmptyString)
          (truthy (js_get "is_deleted" d))
          (bind_text (js_get "sync_status" d))
          (bind_text (js_get "server_id" d))
          (bind_text (js_get "last_synced_at" d)).

(** An outcome as the loop of [sync] reads it: [client_id], [status], [error]
    and, through [updateSyncStatus], the [server_id] of the resolved data. *)
Definition typed (p : Wire.outcome) : Processed.t :=
  Processed.mk (Wire.client_id p) (Wire.server_id p) (Wire.status p)
               (option_map as_task (Wire.resolved_data p)) (Wire.error p).

(** Step 4 of [processBatch], for one processed item as received: the
    parameter list of the UPDATE is built first, and building it calls
    [resolved_data.updated_at.toISOString()]. *)
Definition apply_conflict_json (w : World) (p : Wire.outcome) : string + World :=
  if String.eqb (Wire.status p) "conflict" then
    match Wire.resolved_data p with
    | Some d =>
        match toISOString (js_get "updated_at" d) with
        | inl message => inl message
        | inr updated_at =>
            inr (with_tasks
                   (update_tasks
                      (TaskRow.set_resolved
                         (bind_text (js_get "title" d))
                         (bind_text (js_get "description" d))
                         (if truthy (js_get "completed" d) then 1 else 0)
                         updated_at (Wire.server_id p))
                      (Wire.client_id p) (tasks w)) w)
        end
    | None => inr w
    end
  else inr w.

(** [for (const processedItem of batchResponse.processed_items)] of
    [processBatch]: the message of the error that ended the loop, if one did,
    and the world the loop left. *)
Fixpoint apply_conflicts_json (ps : list Wire.outcome) (w : World)
  : option string * World :=
  match ps with
  | [] => (None, w)
  | p :: rest =>
      match apply_conflict_json w p with
      | inl message => (Some message, w)
      | inr w' => apply_conflicts_json rest w'
      end
  end.

(** The error step 4 ends with on the outcomes received, if any. *)
Fixpoint thrown_by (ps : list Wire.outcome) : option string :=
  match ps with
  | [] => None
  | p :: rest =>
      if String.eqb (Wire.status p) "conflict" then
        match Wire.resolved_data p with
        | Some d =>
            match toISOString (js_get "updated_at" d) with
            | inl message => Some message
            | inr _ => thrown_by rest
            end
        | None => thrown_by rest
        end
      else thrown_by rest
  end.

Section Received.

Variable clock : nat -> Date.
(** [axios.post] for the [n]-th request of the run, with the response body as
    received. *)
Variable axios_post_json : nat -> BatchSyncRequest -> string + list Wire.outcome.

(** [processBatch] on a response as received. *)
Definition processBatch_json (batch : list SyncQueueItem.t) (w : World)
  : (string + BatchSyncResponse) * World :=
  let (now, w1) := new_Date clock w in
  let batchRequest := mkRequest batch now in
  let w2 :=
    mkWorld (tasks w1) (sync_queue w1) (clock_reads w1) (uuid_reads w1)
            (http_log w1 ++ [batchRequest]) in
  match axios_post_json (length (http_log w1)) batchRequest with
  | inl message => (inl message, w2)
  | inr processed =>
      match apply_conflicts_json processed w2 with
      | (Some message, w3) => (inl message, w3)
      | (None, w3) => (inr (mkResponse (map typed processed)), w3)
      end
  end.

(** What [processBatch] makes of the [n]-th request: the error it throws,
    from the transport or from step 4, or the response it returns. *)
Definition over_json (n : nat) (req : BatchSyncRequest)
  : string + BatchSyncResponse :=
  match axios_post_json n req with
  | inl message => inl message
  | inr processed =>
      match thrown_by processed with
      | Some message => inl message
      | None => inr (mkResponse (map typed processed))
      end
  end.

(** [sync()] when the responses arrive as JSON: [processBatch] over
    [over_json] is [processBatch_json] (lemma [processBatch_json_as_typed]). *)
Definition sync_json (fuel : nat) (batchSize : Z) (w : World)
  : option (SyncResult * World) :=
  sync clock over_json fuel batchSize w.

End Received.

(** ** The HTTP layer: [routes/tasks] and [routes/sync] *)

(** [typeof v] *)
Definition js_typeof (v : jsval) : string :=
  match v with
  | JUndefined => "undefined"
  | JNull => "object"
  | JBool _ => "boolean"
  | JNum _ => "number"
  | JStr _ => "string"
  end.

(** [v !== undefined] *)
Definition js_defined (v : jsval) : bool :=
  match v with
  | JUndefined => false
  | _ => true
  end.

(** The body of [GET /status]. *)
Record SyncStatus := mkStatus {
  pending_sync_count : nat;
  last_sync_timestamp : option string;
  is_online : bool;
  sync_queue_size : nat
}.

(** What a handler sends: [res.json(...)], or [res.send()] with no body. *)
Inductive HttpBody :=
| SendNothing
| JsonError (error : string)
| JsonTask (task : Task.t)
| JsonTasks (all : list Task.t)
| JsonObject (o : jsobj)
| JsonSyncResult (result : SyncResult)
| JsonStatus (st : SyncStatus)
| JsonBatch (processed_items : list Wire.outcome).

Record HttpResponse := mkHttp {
  http_status : Z;
  http_body : HttpBody
}.

(** [SELECT MAX(last_synced_at) ... WHERE last_synced_at IS NOT NULL]: the
    greatest stored text, NULL when no row has one. *)
Definition max_text (a b : string) : string :=
  if String.leb a b then b else a.

Definition select_max_last_synced_at (rows : list TaskRow.t) : option string :=
  fold_left
    (fun acc r =>
       match TaskRow.last_synced_at r with
       | None => acc
       | Some s =>
           match acc with
           | None => Some s
           | Some m => Some (max_text m s)
           end
       end)
    rows None.

(** [x || null] on the column read back. *)
Definition or_null (x : option string) : option string :=
  match x with
  | Some s => if String.eqb s EmptyString then None else Some s
  | None => None
  end.

(** [checkConnectivity()], given how [axios.get(`${apiUrl}/health`)] ended:
    with an error, or with a response. *)
Definition checkConnectivity (health : string + jsobj) : bool :=
  match health with
  | inr _ => true
  | inl _ => false
  end.

Section Routes.

Variable clock : nat -> Date.
Variable uuidv4 : nat -> string.
Variable axios_post : nat -> BatchSyncRequest -> string + BatchSyncResponse.

(** *** [createTaskRouter] *)

(** [router.get('/')] *)
Definition get_tasks (w : World) : HttpResponse :=
  mkHttp 200 (JsonTasks (getAllTasks w)).

(** [router.get('/:id')] *)
Definition get_task (id : string) (w : World) : HttpResponse :=
  match getTask id w with
  | None => mkHttp 404 (JsonError "Task not found")
  | Some task => mkHttp 200 (JsonTask task)
  end.

(** [router.post('/')] on the request body. *)
Definition post_task (body : jsobj) (w : World) : HttpResponse * World :=
  if negb (truthy (js_get "title" body))
     || negb (String.eqb (js_typeof (js_get "title" body)) "string")
  then (mkHttp 400 (JsonError "Title is required and must be a string"), w)
  else
    let (task, w') :=
      createTask clock uuidv4
                 [("title", js_get "title" body);
                  ("description", js_get "description" body)] w in
    (mkHttp 201 (JsonTask task), w').

(** [router.put('/:id')] *)
Definition put_task (id : string) (body : jsobj) (w : World)
  : HttpResponse * World :=
  if js_defined (js_get "title" body)
     && negb (String.eqb (js_typeof (js_get "title" body)) "string")
  then (mkHttp 400 (JsonError "Title must be a string"), w)
  else if js_defined (js_get "completed" body)
          && negb (String.eqb (js_typeof (js_get "completed" body)) "boolean")
  then (mkHttp 400 (JsonError "Completed must be a boolean"), w)
  else
    match updateTask clock uuidv4 id
                     [("title", js_get "title" body);
                      ("description", js_get "description" body);
                      ("completed", js_get "completed" body)] w with
    | (None, w') => (mkHttp 404 (JsonError "Task not found"), w')
    | (Some updatedTask, w') =>
        (mkHttp 200 (JsonObject (JSON_stringify updatedTask)), w')
    end.

(** [router.delete('/:id')] *)
Definition delete_task (id : string) (w : World) : HttpResponse * World :=
  match deleteTask clock uuidv4 id w with
  | (false, w') => (mkHttp 404 (JsonError "Task not found"), w')
  | (true, w') => (mkHttp 204 SendNothing, w')
  end.

(** *** [createSyncRouter] *)

(** [router.post('/sync')]; [None] when [sync] does not finish. *)
Definition post_sync (health : string + jsobj) (fuel : nat) (batchSize : Z)
           (w : World) : option (HttpResponse * World) :=
  if negb (checkConnectivity health)
  then Some (mkHttp 503 (JsonError "Service unavailable - offline"), w)
  else
    match sync clock axios_post fuel batchSize w with
    | Some (syncResult, w') => Some (mkHttp 200 (JsonSyncResult syncResult), w')
    | None => None
    end.

(** [router.get('/status')] *)
Definition get_status (health : string + jsobj) (w : World) : HttpResponse :=
  let pendingSyncCount := length (getTasksNeedingSync w) in
  let lastSyncTimestamp := or_null (select_max_last_synced_at (tasks w)) in
  let isOnline := checkConnectivity health in
  mkHttp 200
         (JsonStatus
            (mkStatus pendingSyncCount lastSyncTimestamp isOnline
                      pendingSyncCount)).

End Routes.

(** [router.post('/batch')], the stand-in for the authority.  [serverId k] is
    the identifier built for the [k]-th item and [now k] the instant it is
    answered. *)

(** [item.data.k]; reading a property of a string gives [undefined]. *)
Definition data_member (k : string) (d : Wire.payload) : jsval :=
  match d with
  | Wire.Object o => js_get k o
  | _ => JUndefined
  end.

(** Body of [for (const item of batchRequest.items)]: the [try], whose reads of
    [item.data.title] throw when [item.data] is missing, and its [catch].
    [res.json] prints [new Date(item.created_at)], built from an instant in
    ISO text, back as that text, and leaves out the members that are
    [undefined]. *)
Definition batch_outcome (serverId : string) (now : Date) (item : Wire.item)
  : Wire.outcome :=
  match Wire.data item with
  | Wire.NoData =>
      Wire.mkOutcome (Wire.task_id item) None "error" None
                     (Some "Processing failed")
  | d =>
      Wire.mkOutcome
        (Wire.task_id item) (Some serverId) "success"
        (Some (JSON_stringify
                 [("id", JStr serverId);
                  ("title", data_member "title" d);
                  ("description", data_member "description" d);
                  ("completed",
                   if truthy (data_member "completed" d)
                   then data_member "completed" d else JBool false);
                  ("created_at", JStr (Wire.created_at item));
                  ("updated_at", JStr now)]))
        None
  end.

Fixpoint batch_items (serverId : nat -> string) (now : nat -> Date) (k : nat)
         (items : list Wire.item) : list Wire.outcome :=
  match items with
  | [] => []
  | item :: rest =>
      batch_outcome (serverId k) (now k) item
      :: batch_items serverId now (S k) rest
  end.

(** The handler, on the [items] member of the body; [None] when the body has
    no list there, so that the loop header throws into the outer [catch]. *)
Definition post_batch (serverId : nat -> string) (now : nat -> Date)
           (items : option (list Wire.item)) : HttpResponse :=
  match items with
  | Some l => mkHttp 200 (JsonBatch (batch_items serverId now 0 l))
  | None => mkHttp 500 (JsonError "Batch sync failed")
  end.

(** A queue row as [sync] posts it: [data] is the column text. *)
Definition posted (q : SyncQueueItem.t) : Wire.item :=
  Wire.mkItem (SyncQueueItem.task_id q) (Wire.Text (SyncQueueItem.data q))
              (SyncQueueItem.created_at q).

(** [axios.post] against [post_batch]. *)
Definition post_to_batch_route (serverId : nat -> string) (now : nat -> Date)
           (_ : nat) (req : BatchSyncRequest) : string + list Wire.outcome :=
  match http_body (post_batch serverId now (Some (map posted (items req)))) with
  | JsonBatch processed => inr processed
  | _ => inl "Request failed with status code 500"
  end.

(** The client's transport when it talks to [post_batch]. *)
Definition via_batch_route (serverId : nat -> string) (now : nat -> Date)
  : nat -> BatchSyncRequest -> string + BatchSyncResponse :=
  over_json (post_to_batch_route serverId now).

(** The object [updateTask] builds from the row and the updates. *)
Definition merged (existing : TaskRow.t) (updates : jsobj) (now : Date)
  : jsobj :=
  js_spread (js_spread (TaskRow.to_object existing) updates)
            [("updated_at", JStr now); ("sync_status", JStr "pending")].

(** ** Further predicates *)

(** The transport answers every request, with one [success] outcome per item
    sent, in the order sent. *)
Definition confirms_every_item
           (axios_post : nat -> BatchSyncRequest -> string + BatchSyncResponse)
  : Prop :=
  forall n req,
  exists ps,
    axios_post n req = inr (mkResponse ps)
    /\ map Processed.client_id ps = map SyncQueueItem.task_id (items req)
    /\ Forall (fun p => Processed.status p = "success") ps.

(** [q'] is the queue row [q] but for its attempt count and error message. *)
Definition same_queue_entry (q q' : SyncQueueItem.t) : Prop :=
  SyncQueueItem.id q' = SyncQueueItem.id q
  /\ SyncQueueItem.task_id q' = SyncQueueItem.task_id q
  /\ SyncQueueItem.operation q' = SyncQueueItem.operation q
  /\ SyncQueueItem.data q' = SyncQueueItem.data q
  /\ SyncQueueItem.created_at q' = SyncQueueItem.created_at q.

(** [r'] is the task row [r] but for the columns a pass writes: the content
    columns a conflict replaces, [sync_status], [server_id] and
    [last_synced_at]. *)
Definition same_record (r r' : TaskRow.t) : Prop :=
  TaskRow.id r' = TaskRow.id r
  /\ TaskRow.created_at r' = TaskRow.created_at r
  /\ TaskRow.is_deleted r' = TaskRow.is_deleted r.

(** The task rows [ts'] are the rows [ts], one for one and in order, each up
    to the columns a pass writes. *)
Definition rows_kept (ts ts' : list TaskRow.t) : Prop :=
  map TaskRow.id ts' = map TaskRow.id ts
  /\ forall r', In r' ts' -> exists r, In r ts /\ same_record r r'.

(** The queue rows [qs'] all come from [qs], each up to its attempt count and
    error message, and are no more than the rows of [qs]. *)
Definition entries_kept (qs qs' : list SyncQueueItem.t) : Prop :=
  (length qs' <= length qs)%nat
  /\ forall q', In q' qs' -> exists q, In q qs /\ same_queue_entry q q'.

(** No answer of the transport carries a conflict or resolved data with a
    [server_id] of its own. *)
Definition never_names_remote_id
           (axios_post : nat -> BatchSyncRequest -> string + BatchSyncResponse)
  : Prop :=
  forall n req resp p,
    axios_post n req = inr resp ->
    In p (processed_items resp) ->
    Processed.status p <> "conflict"
    /\ recorded_server_id (Processed.resolved_data p) = None.

(** The task rows [ts'] come from rows of [ts] with the same identifier and
    the same [server_id]. *)
Definition server_ids_kept (ts ts' : list TaskRow.t) : Prop :=
  forall r', In r' ts' ->
             exists r, In r ts
                       /\ TaskRow.id r' = TaskRow.id r
                       /\ TaskRow.server_id r' = TaskRow.server_id r.

(** The part of the world a pass may not disturb, between two of its states. *)
Definition pass_kept (w w' : World) : Prop :=
  rows_kept (tasks w) (tasks w')
  /\ entries_kept (sync_queue w) (sync_queue w')
  /\ uuid_reads w' = uuid_reads w.


(** The predicates below speak of the answers to the requests in [sent]. *)





(** No answer holds a [conflict] with resolved data. *)
Definition no_conflict_data
           (sent : nat -> BatchSyncRequest -> Prop)
           (axios_post : nat -> BatchSyncRequest -> string + BatchSyncResponse)
  : Prop :=
  forall n req resp p,
    sent n req ->
    axios_post n req = inr resp ->
    In p (processed_items resp) ->
    Processed.status p = "conflict" ->
    Processed.resolved_data p = None.





(** ** Further sample data *)

Definition server_id_of (k : nat) : string :=
  match k with
  | 0%nat => "srv_0"
  | 1%nat => "srv_1"
  | _ => "srv_2"
  end.

(** Task [R] with a description and the completion flag set. *)
Definition task_R_done : TaskRow.t :=
  TaskRow.mk "R" (Some "A") (Some "notes") 1 "2024-06-01T09:00:00.000Z"
             "2024-06-02T09:00:00.000Z" 0 "synced" (Some "srv-9")
             (Some "2024-06-02T10:00:00.000Z").


(** What the authority holds for [R] as it arrives in a response: edited on
    3 June, a day after the local edit. *)
Definition authority_R_json : jsobj :=
  [("id", JStr "R"); ("title", JStr "Z");
   ("description", JStr "from the authority"); ("completed", JBool true);
   ("created_at", JStr "2024-06-01T09:00:00.000Z");
   ("updated_at", JStr "2024-06-03T09:00:00.000Z")].

Definition conflict_R_json : Wire.outcome :=
  Wire.mkOutcome "R" (Some "srv-1") "conflict" (Some authority_R_json) None.

(** A transport that answers every request with the given body. *)
Definition answering_json (ps : list Wire.outcome) (_ : nat)
           (_ : BatchSyncRequest) : string + list Wire.outcome :=
  inr ps.

(** A later update of [R], enqueued an hour after [item_q1]. *)
Definition item_q4 : SyncQueueItem.t :=
  SyncQueueItem.mk "q4" "R" "update" [("id", JStr "R"); ("completed", JBool true)]
                   "2024-06-02T10:00:00.000Z" 0 None.

(** A transport that answers its [k]-th request with the given outcomes and
    fails on every other. *)
Definition answering_only (k : nat) (ps : list Processed.t) (n : nat)
           (_ : BatchSyncRequest) : string + BatchSyncResponse :=
  if Nat.eqb n k then inr (mkResponse ps) else inl "Network Error".
(** * Properties *)

(** ** The batching loop *)

Lemma slice_in_range {A : Type} (l : list A) (i n : Z) :
  0 <= i < Z.of_nat (length l) -> 0 < n ->
  slice l i (i + n) = firstn (Z.to_nat n) (skipn (Z.to_nat i) l).
Proof.
  intros Hi Hn. unfold slice, rel_index.
  destruct (Z.ltb_spec i 0) as [Hneg|_]; [lia|].
  destruct (Z.ltb_spec (i + n) 0) as [Hneg|_]; [lia|].
  rewrite (Z.min_l i) by lia.
  destruct (Z.le_ge_cases (i + n) (Z.of_nat (length l))) as [Hle|Hge].
  - rewrite Z.min_l by lia. f_equal. lia.
  - rewrite Z.min_r by lia.
    rewrite !firstn_all2; trivial; rewrite length_skipn; lia.
Qed.

Lemma skipn_split {A : Type} (l : list A) (a b : nat) :
  firstn b (skipn a l) ++ skipn (a + b) l = skipn a l.
Proof.
  rewrite Nat.add_comm, <- skipn_skipn. apply firstn_skipn.
Qed.

Lemma full_but_last_nth {A : Type} (batchSize : Z) (gs : list (list A)) :
  full_but_last batchSize gs ->
  forall k, (S k < length gs)%nat ->
            Z.of_nat (length (nth k gs [])) = batchSize.
Proof.
  induction gs as [|g gs IH]; simpl; intros H k Hk; [lia|].
  destruct H as [Hg Hrest]. destruct k as [|k].
  - destruct gs; [simpl in Hk; lia | exact Hg].
  - apply IH; [exact Hrest | lia].
Qed.

Lemma batches_from_spec {A : Type} (queueItems : list A) (batchSize : Z) :
  0 < batchSize ->
  forall fuel i,
    0 <= i ->
    Z.of_nat (length queueItems) - i <= Z.of_nat fuel ->
    exists batches,
      batches_from fuel queueItems batchSize i = Some batches
      /\ concat batches = skipn (Z.to_nat i) queueItems
      /\ Forall (fun g => 0 < Z.of_nat (length g) <= batchSize) batches
      /\ full_but_last batchSize batches.
Proof.
  intros Hbs. induction fuel as [|fuel IH]; intros i Hi Hfuel.
  - exists []. simpl.
    destruct (Z.ltb_spec i (Z.of_nat (length queueItems))); [lia|].
    repeat split; auto. rewrite skipn_all2; trivial. lia.
  - simpl. destruct (Z.ltb_spec i (Z.of_nat (length queueItems))) as [Hlt|Hge].
    + destruct (IH (i + batchSize)) as (rest & Hrest & Hcat & Hsz & Hfull);
        [lia | lia |].
      rewrite Hrest. eexists. split; [reflexivity|].
      rewrite slice_in_range by lia.
      assert (Hlen : length (firstn (Z.to_nat batchSize)
                                    (skipn (Z.to_nat i) queueItems))
                     = Nat.min (Z.to_nat batchSize)
                               (length queueItems - Z.to_nat i)).
      { now rewrite length_firstn, length_skipn. }
      split; [|split].
      * simpl. rewrite Hcat.
        replace (Z.to_nat (i + batchSize))
          with (Z.to_nat i + Z.to_nat batchSize)%nat by lia.
        apply skipn_split.
      * constructor; [rewrite Hlen; lia | exact Hsz].
      * simpl. split; [|exact Hfull].
        destruct rest as [|g rest']; [trivial|].
        rewrite Hlen.
        destruct (Z.le_gt_cases (Z.of_nat (length queueItems))
                                (i + batchSize)) as [Hend|Hmore]; [|lia].
        exfalso. simpl in Hcat.
        rewrite skipn_all2 in Hcat by lia.
        apply app_eq_nil in Hcat. destruct Hcat as [Hg _].
        inversion Hsz as [|? ? Hg0 _]; subst. simpl in Hg0. lia.
    + exists []. repeat split; auto. rewrite skipn_all2; trivial. lia.
Qed.

(** C6. With a positive batch size the batching loop of [sync] terminates
    (any fuel from the length of the input on suffices) and splits the input
    into contiguous groups: their concatenation is the input, every group is
    non-empty and holds at most [batchSize] items, and every group but the
    last holds exactly [batchSize]. *)
Theorem batches_partition {A : Type} (queueItems : list A) (batchSize : Z)
        (fuel : nat) :
  0 < batchSize ->
  (length queueItems <= fuel)%nat ->
  exists batches,
    batches_from fuel queueItems batchSize 0 = Some batches
    /\ concat batches = queueItems
    /\ Forall (fun g => 0 < Z.of_nat (length g) <= batchSize) batches
    /\ (forall k, (S k < length batches)%nat ->
                  Z.of_nat (length (nth k batches [])) = batchSize).
Proof.
  intros Hbs Hfuel.
  destruct (batches_from_spec queueItems batchSize Hbs fuel 0)
    as (batches & Hrun & Hcat & Hsz & Hfull); [lia | lia |].
  exists batches. repeat split; trivial.
  apply full_but_last_nth. exact Hfull.
Qed.

Lemma batches_partition_witness :
  exists batches,
    batches_from 5 [1; 2; 3; 4; 5] 2 0 = Some batches
    /\ concat batches = [1; 2; 3; 4; 5]
    /\ Forall (fun g => 0 < Z.of_nat (length g) <= 2) batches
    /\ (forall k, (S k < length batches)%nat ->
                  Z.of_nat (length (nth k batches [])) = 2).
Proof.
  apply (batches_partition [1; 2; 3; 4; 5] 2 5); simpl; lia.
Defined.
(** ** Draining the queue *)

Lemma string_compare_le_trans (s1 s2 s3 : string) :
  String.compare s1 s2 <> Gt -> String.compare s2 s3 <> Gt ->
  String.compare s1 s3 <> Gt.
Proof.
  revert s2 s3. induction s1 as [|a s1 IH]; intros [|b s2] [|c s3]; simpl;
    try congruence.
  unfold Ascii.compare.
  destruct (N.compare_spec (Ascii.N_of_ascii a) (Ascii.N_of_ascii b));
    destruct (N.compare_spec (Ascii.N_of_ascii b) (Ascii.N_of_ascii c));
    destruct (N.compare_spec (Ascii.N_of_ascii a) (Ascii.N_of_ascii c));
    try congruence; try lia.
  apply IH.
Qed.

Lemma string_leb_trans (s1 s2 s3 : string) :
  String.leb s1 s2 = true -> String.leb s2 s3 = true -> String.leb s1 s3 = true.
Proof.
  unfold String.leb. intros H12 H23.
  assert (H := string_compare_le_trans s1 s2 s3).
  destruct (String.compare s1 s2); destruct (String.compare s2 s3);
    destruct (String.compare s1 s3); try discriminate; trivial;
    exfalso; apply H; congruence.
Qed.

Lemma insert_by_created_at_perm q rows :
  Permutation (insert_by_created_at q rows) (q :: rows).
Proof.
  induction rows as [|r rows IH]; simpl; [reflexivity|].
  destruct (String.leb _ _); [reflexivity|].
  rewrite IH. apply perm_swap.
Qed.

Lemma order_by_created_at_perm rows :
  Permutation (order_by_created_at rows) rows.
Proof.
  induction rows as [|q rows IH]; simpl; [constructor|].
  rewrite insert_by_created_at_perm. now constructor.
Qed.

Lemma insert_by_created_at_sorted q rows :
  StronglySorted created_at_le rows ->
  StronglySorted created_at_le (insert_by_created_at q rows).
Proof.
  induction 1 as [|r rows Hs IH Hall]; simpl.
  - repeat constructor.
  - destruct (String.leb (SyncQueueItem.created_at q)
                         (SyncQueueItem.created_at r)) eqn:Hle.
    + constructor; [now constructor|].
      constructor; [exact Hle|].
      eapply Forall_impl; [|exact Hall].
      intros x Hx. unfold created_at_le in *.
      eapply string_leb_trans; eassumption.
    + constructor; [exact IH|].
      assert (Hrq : created_at_le r q).
      { unfold created_at_le.
        destruct (String.leb_total (SyncQueueItem.created_at q)
                                   (SyncQueueItem.created_at r)); congruence. }
      eapply Permutation_Forall;
        [symmetry; apply insert_by_created_at_perm|].
      now constructor.
Qed.

Lemma order_by_created_at_sorted rows :
  StronglySorted created_at_le (order_by_created_at rows).
Proof.
  induction rows as [|q rows IH]; simpl; [constructor|].
  now apply insert_by_created_at_sorted.
Qed.

Lemma string_leb_refl s : String.leb s s = true.
Proof.
  destruct (String.leb_total s s); assumption.
Qed.

(** Inserting a row leaves the rows of another instant as they were and puts
    the row in front of the rows of its own instant. *)
Lemma enqueued_at_insert ts q rows :
  StronglySorted created_at_le rows ->
  enqueued_at ts (insert_by_created_at q rows) = enqueued_at ts (q :: rows).
Proof.
  induction 1 as [|r rows Hs IH Hall]; [reflexivity|].
  simpl insert_by_created_at.
  destruct (String.leb (SyncQueueItem.created_at q)
                       (SyncQueueItem.created_at r)) eqn:Hle; [reflexivity|].
  unfold enqueued_at in *. simpl filter at 1. rewrite IH. simpl.
  destruct (String.eqb_spec (SyncQueueItem.created_at q) ts) as [Hq|Hq];
    destruct (String.eqb_spec (SyncQueueItem.created_at r) ts) as [Hr|Hr];
    simpl; trivial.
  exfalso. rewrite Hq, Hr, string_leb_refl in Hle. discriminate.
Qed.

Lemma order_by_created_at_stable ts rows :
  enqueued_at ts (order_by_created_at rows) = enqueued_at ts rows.
Proof.
  induction rows as [|q rows IH]; [reflexivity|].
  simpl order_by_created_at.
  rewrite enqueued_at_insert by apply order_by_created_at_sorted.
  unfold enqueued_at in *. simpl. now rewrite IH.
Qed.

(** The drain of [sync]: every row of the queue, in non-decreasing
    [created_at] order, rows of one instant in the order they were inserted. *)
Lemma order_by_created_at_spec (rows : list SyncQueueItem.t) :
  Permutation (order_by_created_at rows) rows
  /\ StronglySorted created_at_le (order_by_created_at rows)
  /\ (forall ts, enqueued_at ts (order_by_created_at rows) = enqueued_at ts rows).
Proof.
  split; [apply order_by_created_at_perm|].
  split; [apply order_by_created_at_sorted|].
  intros ts. apply order_by_created_at_stable.
Qed.

(** ** What each step of a pass touches *)

Lemma fold_left_inv {A B : Type} (P : A -> Prop) (f : A -> B -> A) (l : list B) :
  (forall a b, In b l -> P a -> P (f a b)) ->
  forall a, P a -> P (fold_left f l a).
Proof.
  induction l as [|b l IH]; simpl; intros Hstep a Ha; [exact Ha|].
  apply IH; [|apply Hstep]; auto.
Qed.

Section Steps.

Variable clock : nat -> Date.
Variable axios_post : nat -> BatchSyncRequest -> string + BatchSyncResponse.

Lemma updateSyncStatus_log taskId status serverData w :
  http_log (updateSyncStatus clock taskId status serverData w) = http_log w.
Proof.
  unfold updateSyncStatus. simpl.
  destruct serverData as [d|]; [destruct (Task.server_id d) as [sv|];
    [destruct (String.eqb sv EmptyString)|]|];
    destruct (String.eqb status "synced"); reflexivity.
Qed.

Lemma updateSyncStatus_queue taskId status serverData w :
  sync_queue (updateSyncStatus clock taskId status serverData w)
  = if String.eqb status "synced"
    then delete_sync_queue_by_task taskId (sync_queue w)
    else sync_queue w.
Proof.
  unfold updateSyncStatus. simpl.
  destruct serverData as [d|]; [destruct (Task.server_id d) as [sv|];
    [destruct (String.eqb sv EmptyString)|]|];
    destruct (String.eqb status "synced"); reflexivity.
Qed.

Lemma handleSyncError_log item message w :
  http_log (handleSyncError item message w) = http_log w.
Proof.
  unfold handleSyncError. destruct (3 <=? _); reflexivity.
Qed.

Lemma handleSyncError_queue item message w :
  sync_queue (handleSyncError item message w)
  = update_sync_queue
      (SyncQueueItem.set_retry (SyncQueueItem.retry_count item + 1) message)
      (SyncQueueItem.id item) (sync_queue w).
Proof.
  unfold handleSyncError. destruct (3 <=? _); reflexivity.
Qed.

Lemma apply_conflict_log w p : http_log (apply_conflict w p) = http_log w.
Proof.
  unfold apply_conflict.
  destruct (String.eqb _ _); [destruct (Processed.resolved_data p)|];
    reflexivity.
Qed.

Lemma apply_conflict_queue w p : sync_queue (apply_conflict w p) = sync_queue w.
Proof.
  unfold apply_conflict.
  destruct (String.eqb _ _); [destruct (Processed.resolved_data p)|];
    reflexivity.
Qed.

Lemma processBatch_log batch w :
  http_log (snd (processBatch clock axios_post batch w))
  = http_log w ++ [mkRequest batch (clock (clock_reads w))].
Proof.
  unfold processBatch. simpl.
  destruct (axios_post _ _) as [message|resp]; simpl; [reflexivity|].
  apply (fold_left_inv
           (fun w' => http_log w' = http_log w ++ [mkRequest batch _])).
  - intros a p _ Ha. now rewrite apply_conflict_log.
  - reflexivity.
Qed.

Lemma processBatch_queue batch w :
  sync_queue (snd (processBatch clock axios_post batch w)) = sync_queue w.
Proof.
  unfold processBatch. simpl.
  destruct (axios_post _ _) as [message|resp]; simpl; [reflexivity|].
  apply (fold_left_inv (fun w' => sync_queue w' = sync_queue w)).
  - intros a p _ Ha. now rewrite apply_conflict_queue.
  - reflexivity.
Qed.

Lemma handle_processed_log batch st p :
  http_log (snd (handle_processed clock batch st p)) = http_log (snd st).
Proof.
  destruct st as [c w]. unfold handle_processed.
  destruct (String.eqb _ _); unfold new_Date; cbn [snd];
    now rewrite updateSyncStatus_log.
Qed.

Lemma handle_thrown_log message st item :
  http_log (snd (handle_thrown clock message st item)) = http_log (snd st).
Proof.
  destruct st as [es w]. unfold handle_thrown, new_Date. cbn [snd http_log].
  apply handleSyncError_log.
Qed.

Lemma run_batch_log st batch :
  http_log (snd (run_batch clock axios_post st batch))
  = http_log (snd st) ++ [mkRequest batch (clock (clock_reads (snd st)))].
Proof.
  destruct st as [c w]. unfold run_batch. cbn [snd].
  pose proof (processBatch_log batch w) as Hlog.
  destruct (processBatch clock axios_post batch w) as [[message|resp] w1];
    cbn [snd] in Hlog.
  - destruct (fold_left _ batch _) as [es w2] eqn:Hfold. cbn [snd].
    rewrite <- Hlog.
    change w2 with (snd (es, w2)). rewrite <- Hfold.
    apply (fold_left_inv (fun st' => http_log (snd st') = http_log w1)).
    + intros a b _ Ha. now rewrite handle_thrown_log.
    + reflexivity.
  - rewrite <- Hlog.
    apply (fold_left_inv (fun st' => http_log (snd st') = http_log w1)).
    + intros a b _ Ha. now rewrite handle_processed_log.
    + reflexivity.
Qed.

(** The requests of a run of the batch loop: one per batch, in order. *)
Lemma run_batches_log batches :
  forall st,
  exists reqs,
    http_log (snd (fold_left (run_batch clock axios_post) batches st))
    = http_log (snd st) ++ reqs
    /\ map items reqs = batches.
Proof.
  induction batches as [|b batches IH]; intros st; simpl.
  - exists []. now rewrite app_nil_r.
  - destruct (IH (run_batch clock axios_post st b)) as (reqs & Hlog & Hit).
    rewrite Hlog, run_batch_log, <- app_assoc.
    eexists. split; [reflexivity|]. simpl. now rewrite Hit.
Qed.

End Steps.
(** ** Row-level effect of the UPDATE statements *)

Lemma update_tasks_ids set id rows :
  (forall r, TaskRow.id (set r) = TaskRow.id r) ->
  map TaskRow.id (update_tasks set id rows) = map TaskRow.id rows.
Proof.
  intros Hset. unfold update_tasks. rewrite map_map. apply map_ext.
  intros r. destruct (String.eqb _ _); auto.
Qed.

Lemma update_tasks_hit set id rows r' :
  (forall r, TaskRow.id (set r) = TaskRow.id r) ->
  In r' (update_tasks set id rows) -> TaskRow.id r' = id ->
  exists r, In r rows /\ TaskRow.id r = id /\ r' = set r.
Proof.
  intros Hset Hin Hid. apply in_map_iff in Hin. destruct Hin as (r & Hr & Hin).
  destruct (String.eqb_spec (TaskRow.id r) id) as [He|He].
  - exists r. now repeat split.
  - subst r'. contradiction.
Qed.

Lemma update_tasks_miss set id rows r' :
  (forall r, TaskRow.id (set r) = TaskRow.id r) ->
  TaskRow.id r' <> id ->
  (In r' (update_tasks set id rows) <-> In r' rows).
Proof.
  intros Hset Hne. unfold update_tasks. rewrite in_map_iff. split.
  - intros (r & Hr & Hin).
    destruct (String.eqb_spec (TaskRow.id r) id) as [He|He].
    + subst r'. rewrite Hset in Hne. contradiction.
    + now subst r'.
  - intros Hin. exists r'. split; [|exact Hin].
    destruct (String.eqb_spec (TaskRow.id r') id); [contradiction|reflexivity].
Qed.

Lemma update_sync_queue_ids set id rows :
  (forall q, SyncQueueItem.id (set q) = SyncQueueItem.id q) ->
  map SyncQueueItem.id (update_sync_queue set id rows)
  = map SyncQueueItem.id rows.
Proof.
  intros Hset. unfold update_sync_queue. rewrite map_map. apply map_ext.
  intros q. destruct (String.eqb _ _); auto.
Qed.



Section RowSteps.

Variable clock : nat -> Date.

Lemma updateSyncStatus_tasks taskId status serverData w :
  tasks (updateSyncStatus clock taskId status serverData w)
  = let rows :=
      update_tasks
        (TaskRow.set_status_synced_at status (clock (clock_reads w)))
        taskId (tasks w) in
    match recorded_server_id serverData with
    | Some sv => update_tasks (TaskRow.set_server_id sv) taskId rows
    | None => rows
    end.
Proof.
  unfold updateSyncStatus, recorded_server_id. simpl.
  destruct serverData as [d|]; [destruct (Task.server_id d) as [sv|];
    [destruct (String.eqb sv EmptyString)|]|];
    destruct (String.eqb status "synced"); reflexivity.
Qed.

(** The rows of the task after [updateSyncStatus]. *)
Lemma updateSyncStatus_row taskId status serverData w r' :
  In r' (tasks (updateSyncStatus clock taskId status serverData w)) ->
  TaskRow.id r' = taskId ->
  TaskRow.sync_status r' = status
  /\ TaskRow.last_synced_at r' = Some (clock (clock_reads w))
  /\ (forall sv, recorded_server_id serverData = Some sv ->
                 TaskRow.server_id r' = Some sv).
Proof.
  rewrite updateSyncStatus_tasks. cbv zeta.
  destruct (recorded_server_id serverData) as [sv|]; intros Hin Hid.
  - apply update_tasks_hit in Hin; trivial.
    destruct Hin as (r1 & Hin & Hid1 & ->).
    apply update_tasks_hit in Hin; trivial.
    destruct Hin as (r & _ & _ & ->).
    repeat split. intros sv' H. now inversion H.
  - apply update_tasks_hit in Hin; trivial.
    destruct Hin as (r & _ & _ & ->).
    repeat split. intros sv' H. discriminate.
Qed.

(** The rows of every other task after [updateSyncStatus]. *)
Lemma updateSyncStatus_frame taskId status serverData w r' :
  TaskRow.id r' <> taskId ->
  (In r' (tasks (updateSyncStatus clock taskId status serverData w))
   <-> In r' (tasks w)).
Proof.
  intros Hne. rewrite updateSyncStatus_tasks. cbv zeta.
  destruct (recorded_server_id serverData) as [sv|].
  - rewrite update_tasks_miss by trivial. now apply update_tasks_miss.
  - now apply update_tasks_miss.
Qed.

Lemma updateSyncStatus_ids taskId status serverData w :
  map TaskRow.id (tasks (updateSyncStatus clock taskId status serverData w))
  = map TaskRow.id (tasks w).
Proof.
  rewrite updateSyncStatus_tasks. cbv zeta.
  destruct (recorded_server_id serverData) as [sv|];
    now rewrite !update_tasks_ids.
Qed.

Lemma handleSyncError_tasks item message w :
  tasks (handleSyncError item message w)
  = if 3 <=? SyncQueueItem.retry_count item + 1
    then update_tasks (TaskRow.set_status "error")
                      (SyncQueueItem.task_id item) (tasks w)
    else tasks w.
Proof.
  unfold handleSyncError. destruct (3 <=? _); reflexivity.
Qed.

End RowSteps.
(** ** A pass as a whole *)

Section Pass.

Variable clock : nat -> Date.
Variable axios_post : nat -> BatchSyncRequest -> string + BatchSyncResponse.

Lemma handle_thrown_errors message batch :
  forall es w,
    length (fst (fold_left (handle_thrown clock message) batch (es, w)))
    = (length es + length batch)%nat.
Proof.
  induction batch as [|item batch IH]; intros es w; [simpl; lia|].
  cbn [fold_left].
  destruct (handle_thrown clock message (es, w) item) as [es1 w1] eqn:Hstep.
  unfold handle_thrown, new_Date in Hstep. inversion Hstep; subst.
  rewrite IH, length_app. simpl. lia.
Qed.

(** A batch whose request throws adds its size to [failedItems] and one
    entry per item to [errors], and counts nothing as synced. *)
Lemma run_batch_thrown c w batch message :
  fst (processBatch clock axios_post batch w) = inl message ->
  let c' := fst (run_batch clock axios_post (c, w) batch) in
  syncedItems c' = syncedItems c
  /\ failedItems c' = (failedItems c + length batch)%nat
  /\ length (errs c') = (length (errs c) + length batch)%nat.
Proof.
  unfold run_batch.
  destruct (processBatch clock axios_post batch w) as [[m|resp] w1];
    simpl; intros Hm; [|discriminate].
  pose proof (handle_thrown_errors m batch (errs c) w1) as Hlen.
  destruct (fold_left _ batch _) as [es w2]. simpl in *. auto.
Qed.

Lemma processBatch_thrown batch w message :
  axios_post (length (http_log w)) (mkRequest batch (clock (clock_reads w)))
  = inl message ->
  fst (processBatch clock axios_post batch w) = inl message.
Proof.
  unfold processBatch. simpl. now intros ->.
Qed.

Lemma run_batches_all_thrown batches :
  (forall n req, exists message, axios_post n req = inl message) ->
  forall st,
    let c' := fst (fold_left (run_batch clock axios_post) batches st) in
    syncedItems c' = syncedItems (fst st)
    /\ failedItems c' = (failedItems (fst st) + length (concat batches))%nat
    /\ length (errs c') = (length (errs (fst st)) + length (concat batches))%nat.
Proof.
  intros Hoff. induction batches as [|b batches IH]; intros [c w];
    cbn [fold_left fst concat].
  - simpl. repeat split; lia.
  - destruct (Hoff (length (http_log w))
                   (mkRequest b (clock (clock_reads w)))) as [m Hm].
    destruct (run_batch_thrown c w b m (processBatch_thrown b w m Hm))
      as (Hs & Hf & He).
    destruct (run_batch clock axios_post (c, w) b) as [c1 w1] eqn:Hrun.
    simpl in Hs, Hf, He.
    destruct (IH (c1, w1)) as (Hs' & Hf' & He'). simpl in Hs', Hf', He'.
    rewrite Hs', Hf', He', Hs, Hf, He, length_app. repeat split; lia.
Qed.

End Pass.

(** A pass over a queue that fits the fuel: what it returns and what it
    posts. *)
Lemma sync_posts_every_batch
        (clock : nat -> Date)
        (axios_post : nat -> BatchSyncRequest -> string + BatchSyncResponse)
        (fuel : nat) (batchSize : Z) (w : World) :
  0 < batchSize ->
  (length (sync_queue w) <= fuel)%nat ->
  exists result w' batches reqs,
    sync clock axios_post fuel batchSize w = Some (result, w')
    /\ batches_from fuel (order_by_created_at (sync_queue w)) batchSize 0
       = Some batches
    /\ concat batches = order_by_created_at (sync_queue w)
    /\ http_log w' = http_log w ++ reqs
    /\ map items reqs = batches
    /\ (success result = true <-> failed_items result = 0%nat)
    /\ ((forall n req, exists message, axios_post n req = inl message) ->
        synced_items result = 0%nat
        /\ failed_items result = length (sync_queue w)
        /\ length (errors result) = length (sync_queue w)).
Proof.
  intros Hbs Hfuel.
  pose proof (order_by_created_at_perm (sync_queue w)) as Hperm.
  destruct (batches_from_spec (order_by_created_at (sync_queue w))
                              batchSize Hbs fuel 0)
    as (batches & Hrun & Hcat & _ & _); [lia| |].
  { rewrite (Permutation_length Hperm). lia. }
  simpl in Hcat.
  destruct (run_batches_log clock axios_post batches (mkTally 0 0 [], w))
    as (reqs & Hlog & Hitems).
  pose proof (run_batches_all_thrown clock axios_post batches) as Hoff.
  unfold sync. rewrite Hrun.
  destruct (fold_left _ batches _) as [c w'] eqn:Hfold.
  exists (mkResult (Nat.eqb (failedItems c) 0) (syncedItems c)
                   (failedItems c) (errs c)), w', batches, reqs.
  simpl in Hlog.
  split; [reflexivity|]. split; [reflexivity|]. split; [exact Hcat|].
  split; [exact Hlog|]. split; [exact Hitems|].
  split; [simpl; apply Nat.eqb_eq|].
  intros Hall. specialize (Hoff Hall (mkTally 0 0 [], w)).
  rewrite Hfold in Hoff. simpl in Hoff. simpl.
  now rewrite Hcat, (Permutation_length Hperm) in Hoff.
Qed.


(** C8. With a positive batch size a pass returns a summary whatever the
    transport does: the batching loop finishes, every batch of the drained
    queue is posted, in order, whether or not the requests before it threw,
    and [success] tells whether no item failed.  When every request throws
    the summary still comes back, counting every queue item as failed and
    none as synced. *)
Theorem sync_completes
        (clock : nat -> Date)
        (axios_post : nat -> BatchSyncRequest -> string + BatchSyncResponse)
        (fuel : nat) (batchSize : Z) (w : World) :
  0 < batchSize ->
  (length (sync_queue w) <= fuel)%nat ->
  exists result w' batches reqs,
    sync clock axios_post fuel batchSize w = Some (result, w')
    /\ batches_from fuel (order_by_created_at (sync_queue w)) batchSize 0
       = Some batches
    /\ concat batches = order_by_created_at (sync_queue w)
    /\ http_log w' = http_log w ++ reqs
    /\ map items reqs = batches
    /\ (success result = true <-> failed_items result = 0%nat)
    /\ ((forall n req, exists message, axios_post n req = inl message) ->
        synced_items result = 0%nat
        /\ failed_items result = length (sync_queue w)
        /\ length (errors result) = length (sync_queue w)).
Proof.
  apply sync_posts_every_batch.
Qed.

Lemma sync_completes_witness :
  exists result w' batches reqs,
    sync tick offline 3 2 (world_of [task_R "pending"; task_S]
                                    [item_q1 0; item_q2; item_q3])
    = Some (result, w')
    /\ batches_from 3 (order_by_created_at [item_q1 0; item_q2; item_q3]) 2 0
       = Some batches
    /\ concat batches = order_by_created_at [item_q1 0; item_q2; item_q3]
    /\ http_log w' = [] ++ reqs
    /\ map items reqs = batches
    /\ (success result = true <-> failed_items result = 0%nat)
    /\ ((forall n req, exists message, offline n req = inl message) ->
        synced_items result = 0%nat
        /\ failed_items result = 3%nat
        /\ length (errors result) = 3%nat).
Proof.
  apply (sync_completes tick offline 3 2
           (world_of [task_R "pending"; task_S] [item_q1 0; item_q2; item_q3]));
    simpl; lia.
Defined.
(** ** Removal from the queue *)

Section Removal.

Variable clock : nat -> Date.
Variable axios_post : nat -> BatchSyncRequest -> string + BatchSyncResponse.

Lemma still_queued_same q w w' :
  sync_queue w' = sync_queue w -> still_queued q w -> still_queued q w'.
Proof.
  unfold still_queued. now intros ->.
Qed.

Lemma still_queued_update q set id w w' :
  (forall x, SyncQueueItem.id (set x) = SyncQueueItem.id x
             /\ SyncQueueItem.task_id (set x) = SyncQueueItem.task_id x) ->
  sync_queue w' = update_sync_queue set id (sync_queue w) ->
  still_queued q w -> still_queued q w'.
Proof.
  intros Hset Hq (q' & Hin & Hid & Htask). unfold still_queued.
  rewrite Hq. unfold update_sync_queue.
  exists (if String.eqb (SyncQueueItem.id q') id then set q' else q').
  split.
  - apply (in_map (fun x => if String.eqb (SyncQueueItem.id x) id
                            then set x else x)), Hin.
  - destruct (String.eqb _ _); [|now split].
    destruct (Hset q') as [-> ->]. now split.
Qed.

Lemma still_queued_delete q taskId w w' :
  taskId <> SyncQueueItem.task_id q ->
  sync_queue w' = delete_sync_queue_by_task taskId (sync_queue w) ->
  still_queued q w -> still_queued q w'.
Proof.
  intros Hne Hq (q' & Hin & Hid & Htask). unfold still_queued.
  rewrite Hq. exists q'. repeat split; trivial.
  apply filter_In. split; [exact Hin|].
  rewrite Htask. apply negb_true_iff, String.eqb_neq. congruence.
Qed.

Lemma handle_processed_keeps q batch st p :
  (Processed.status p = "success" ->
   Processed.client_id p <> SyncQueueItem.task_id q) ->
  still_queued q (snd st) ->
  still_queued q (snd (handle_processed clock batch st p)).
Proof.
  destruct st as [c w]. unfold handle_processed. intros Hp Hq.
  destruct (String.eqb_spec (Processed.status p) "success") as [Hs|Hs];
    unfold new_Date; cbn [snd] in *.
  - eapply still_queued_delete; [apply Hp, Hs| |exact Hq].
    now rewrite updateSyncStatus_queue.
  - eapply still_queued_same; [|exact Hq].
    now rewrite updateSyncStatus_queue.
Qed.

Lemma handle_thrown_keeps q message st item :
  still_queued q (snd st) ->
  still_queued q (snd (handle_thrown clock message st item)).
Proof.
  destruct st as [es w]. unfold handle_thrown, new_Date. cbn [snd].
  intros Hq.
  eapply (still_queued_update q _ _ w); [| |exact Hq].
  2: { cbn [sync_queue]. apply handleSyncError_queue. }
  intros x. split; reflexivity.
Qed.

Lemma processBatch_answer batch w resp :
  fst (processBatch clock axios_post batch w) = inr resp ->
  exists n req, axios_post n req = inr resp.
Proof.
  unfold processBatch. simpl.
  destruct (axios_post _ _) as [m|r] eqn:Hpost; simpl; intros H;
    [discriminate|].
  inversion H; subst. eauto.
Qed.

Lemma run_batch_keeps q st batch :
  never_confirmed axios_post (SyncQueueItem.task_id q) ->
  still_queued q (snd st) ->
  still_queued q (snd (run_batch clock axios_post st batch)).
Proof.
  destruct st as [c w]. intros Hnever Hq. unfold run_batch. cbn [snd] in *.
  pose proof (processBatch_queue clock axios_post batch w) as Hsame.
  pose proof (processBatch_answer batch w) as Hans.
  destruct (processBatch clock axios_post batch w) as [[m|resp] w1];
    cbn [fst snd] in *.
  - destruct (fold_left _ batch _) as [es w2] eqn:Hfold. cbn [snd].
    change w2 with (snd (es, w2)). rewrite <- Hfold.
    apply (fold_left_inv (fun st' => still_queued q (snd st'))).
    + intros a b _. apply handle_thrown_keeps.
    + eapply still_queued_same; eassumption.
  - destruct (Hans resp eq_refl) as (n & req & Hpost).
    apply (fold_left_inv (fun st' => still_queued q (snd st'))).
    + intros a p Hin. apply handle_processed_keeps.
      intros Hs. eapply Hnever; eassumption.
    + eapply still_queued_same; eassumption.
Qed.

Lemma sync_keeps q fuel batchSize w result w' :
  never_confirmed axios_post (SyncQueueItem.task_id q) ->
  In q (sync_queue w) ->
  sync clock axios_post fuel batchSize w = Some (result, w') ->
  still_queued q w'.
Proof.
  intros Hnever Hin. unfold sync.
  destruct (batches_from _ _ _ _) as [batches|]; [|discriminate].
  destruct (fold_left _ batches _) as [c w1] eqn:Hfold.
  intros H. inversion H; subst.
  change w' with (snd (c, w')). rewrite <- Hfold.
  apply (fold_left_inv (fun st' => still_queued q (snd st'))).
  - intros a b _. now apply run_batch_keeps.
  - exists q. now repeat split.
Qed.

End Removal.

(** C7, the code at a row whose own request fails.  The queue holds two
    updates of [R], enqueued an hour apart, and one row of [S]; the pass
    drains them oldest first and posts them one by one; only the request that
    carries the first update of [R] is answered, with [success].  Handling
    that outcome removes both rows of [R]: the second update leaves the queue
    before its request is sent, that request then fails, and the pass ends
    with the update gone and [R] marked [synced]. *)
Theorem unconfirmed_row_removed :
  let w := world_of [task_R "pending"; task_S] [item_q1 0; item_q4; item_q3] in
  order_by_created_at (sync_queue w) = [item_q3; item_q1 0; item_q4]
  /\ exists result w',
       sync tick (answering_only 1 [success_R]) 3 1 w = Some (result, w')
       /\ map (fun req => map SyncQueueItem.id (items req)) (http_log w')
          = [["q3"]; ["q1"]; ["q4"]]
       /\ synced_items result = 1%nat
       /\ failed_items result = 2%nat
       /\ map SyncQueueItem.id (sync_queue w') = ["q3"]
       /\ ~ still_queued item_q4 w'
       /\ map TaskRow.sync_status (tasks w') = ["synced"; "pending"].
Proof.
  cbv zeta. split; [reflexivity|].
  do 2 eexists. split; [vm_compute; reflexivity|].
  split; [reflexivity|]. split; [reflexivity|]. split; [reflexivity|].
  split; [reflexivity|]. split; [|reflexivity].
  intros (q' & Hin & Hid & _). simpl in Hin.
  destruct Hin as [<-|[]]. discriminate Hid.
Qed.

(** ** Failures and the retry count *)

(** C1, the code at the retry ceiling.  A row at two attempts fails once
    more: its count reaches 3, the task is marked [error] and not [failed],
    and the next pass posts the row again, taking its count to 4. *)
Theorem retry_ceiling_not_terminal :
  exists result w1 result2 w2,
    sync tick offline 1 50 (world_of [task_R "pending"] [item_q1 2])
    = Some (result, w1)
    /\ map SyncQueueItem.retry_count (sync_queue w1) = [3]
    /\ map TaskRow.sync_status (tasks w1) = ["error"]
    /\ ~ (forall r, In r (tasks w1) -> TaskRow.id r = "R" ->
                    TaskRow.sync_status r = "failed")
    /\ sync tick offline 1 50 w1 = Some (result2, w2)
    /\ map (fun req => map SyncQueueItem.id (items req)) (http_log w2)
       = [["q1"]; ["q1"]]
    /\ map SyncQueueItem.retry_count (sync_queue w2) = [4].
Proof.
  do 4 eexists.
  split; [vm_compute; reflexivity|].
  split; [reflexivity|]. split; [reflexivity|].
  split.
  - intros H. specialize (H _ (or_introl eq_refl) eq_refl). discriminate H.
  - split; [vm_compute; reflexivity|]. split; reflexivity.
Qed.

(** ** A failed item through a pass *)








Section FailedItem.

Variable clock : nat -> Date.
Variable axios_post : nat -> BatchSyncRequest -> string + BatchSyncResponse.
Variable sent : nat -> BatchSyncRequest -> Prop.


(** *** The queue row *)










(** *** The record, when nothing names it *)







(** *** The record, once an outcome for it is handled *)









End FailedItem.


(** No response that [processBatch] returns over JSON holds a [conflict] with
    resolved data: step 4 has thrown on it. *)
Lemma toISOString_throws (v : jsval) : exists message, toISOString v = inl message.
Proof.
  destruct v; simpl; eauto.
Qed.

Lemma thrown_by_none (ps : list Wire.outcome) (p : Wire.outcome) :
  thrown_by ps = None -> In p ps ->
  Wire.status p = "conflict" -> Wire.resolved_data p = None.
Proof.
  induction ps as [|p0 ps IH]; simpl; [tauto|].
  intros Hnone [->|Hin] Hs.
  - rewrite Hs in Hnone. cbn [String.eqb Ascii.eqb Bool.eqb] in Hnone.
    destruct (Wire.resolved_data p) as [d|]; [|reflexivity].
    destruct (toISOString_throws (js_get "updated_at" d)) as [m Hm].
    rewrite Hm in Hnone. discriminate Hnone.
  - apply IH; trivial.
    destruct (String.eqb _ _); [|exact Hnone].
    destruct (Wire.resolved_data p0) as [d|]; [|exact Hnone].
    destruct (toISOString (js_get "updated_at" d)); [discriminate|exact Hnone].
Qed.

Lemma over_json_no_conflict_data
      (sent : nat -> BatchSyncRequest -> Prop)
      (axios_post_json : nat -> BatchSyncRequest -> string + list Wire.outcome) :
  no_conflict_data sent (over_json axios_post_json).
Proof.
  intros n req resp p _ Hpost Hin Hs. unfold over_json in Hpost.
  destruct (axios_post_json n req) as [m|ps]; [discriminate|].
  destruct (thrown_by ps) eqn:Hthrown; [discriminate|].
  inversion Hpost; subst resp. cbn [processed_items] in Hin.
  apply in_map_iff in Hin. destruct Hin as (p0 & <- & Hin).
  unfold typed in *. cbn [Processed.status Processed.resolved_data] in *.
  now rewrite (thrown_by_none ps p0 Hthrown Hin Hs).
Qed.



(** ** Outcomes reported by the authority *)

(** C3, the code at a conflict.  One queued update of [R], answered with
    [conflict] and the authority's data: [processBatch] writes the data to the
    row, and the loop of [sync] then counts the item as failed, reports
    "Unknown error" for it, sets the row to [error] and leaves the queue row
    where it was. *)
Theorem conflict_counted_as_failure :
  sync tick (answering [conflict_R]) 1 50
       (world_of [task_R "pending"] [item_q1 0])
  = Some
      (mkResult false 0 1
         [SyncError.mk "R" "update" "Unknown error" "2024-06-10T12:00:01.000Z"],
       mkWorld
         [TaskRow.mk "R" (Some "Z") (Some "from the authority") 1
            "2024-06-01T09:00:00.000Z" "2024-06-01T09:00:00.000Z" 0
            "error" (Some "srv-1") (Some "2024-06-10T12:00:02.000Z")]
         [item_q1 0] 3 0
         [mkRequest [item_q1 0] "2024-06-10T12:00:00.000Z"]).
Proof.
  vm_compute. reflexivity.
Qed.

(** [processBatch] on a response as received is [processBatch] at the declared
    type over the transport [over_json]. *)
Lemma apply_conflicts_json_thrown (ps : list Wire.outcome) (w : World) :
  apply_conflicts_json ps w = (thrown_by ps, w).
Proof.
  induction ps as [|p ps IH]; simpl; [reflexivity|].
  unfold apply_conflict_json.
  destruct (String.eqb _ _); [|exact IH].
  destruct (Wire.resolved_data p) as [d|]; [|exact IH].
  destruct (toISOString_throws (js_get "updated_at" d)) as [m Hm].
  now rewrite Hm.
Qed.

Lemma apply_conflict_not_thrown (ps : list Wire.outcome) :
  thrown_by ps = None ->
  forall w, fold_left apply_conflict (map typed ps) w = w.
Proof.
  induction ps as [|p ps IH]; simpl; intros Hnone w; [reflexivity|].
  unfold apply_conflict at 2. unfold typed at 2 3 4.
  cbn [Processed.status Processed.resolved_data Processed.client_id
       Processed.server_id].
  destruct (String.eqb _ _); [|now apply IH].
  destruct (Wire.resolved_data p) as [d|]; [|now apply IH].
  destruct (toISOString_throws (js_get "updated_at" d)) as [m Hm].
  rewrite Hm in Hnone. discriminate Hnone.
Qed.

Lemma processBatch_json_as_typed
      (clock : nat -> Date)
      (axios_post_json : nat -> BatchSyncRequest -> string + list Wire.outcome)
      (batch : list SyncQueueItem.t) (w : World) :
  processBatch_json clock axios_post_json batch w
  = processBatch clock (over_json axios_post_json) batch w.
Proof.
  unfold processBatch_json, processBatch, over_json, new_Date.
  cbn [http_log clock_reads].
  destruct (axios_post_json _ _) as [m|ps]; [reflexivity|].
  rewrite apply_conflicts_json_thrown.
  destruct (thrown_by ps) eqn:Hthrown; [reflexivity|].
  cbn [processed_items]. now rewrite apply_conflict_not_thrown.
Qed.

(** C4, the code at a conflict, with the response as it is received.  Step 4
    of [processBatch] throws on every conflict that carries resolved data,
    before its UPDATE runs: for every response the task rows are left as they
    were.  So when the authority holds an edit of 3 June and the local row one
    of 2 June, the local row keeps its own title and [updated_at], the pass
    counts the item as failed with the [TypeError] as its error, and the queue
    row is kept with one more attempt. *)
Theorem conflict_resolution_never_applied :
  (forall clock axios_post_json batch w,
      tasks (snd (processBatch_json clock axios_post_json batch w)) = tasks w)
  /\ String.ltb (TaskRow.updated_at (task_R "pending")) "2024-06-03T09:00:00.000Z"
     = true
  /\ js_get "updated_at" authority_R_json = JStr "2024-06-03T09:00:00.000Z"
  /\ processBatch_json tick (answering_json [conflict_R_json]) [item_q1 0]
                       (world_of [task_R "pending"] [item_q1 0])
     = (inl "processedItem.resolved_data.updated_at.toISOString is not a function",
        mkWorld [task_R "pending"] [item_q1 0] 1 0
                [mkRequest [item_q1 0] "2024-06-10T12:00:00.000Z"])
  /\ sync_json tick (answering_json [conflict_R_json]) 1 50
               (world_of [task_R "pending"] [item_q1 0])
     = Some
         (mkResult false 0 1
            [SyncError.mk "R" "update"
               "processedItem.resolved_data.updated_at.toISOString is not a function"
               "2024-06-10T12:00:01.000Z"],
          mkWorld
            [task_R "pending"]
            [SyncQueueItem.set_retry
               1 "processedItem.resolved_data.updated_at.toISOString is not a function"
               (item_q1 0)]
            2 0
            [mkRequest [item_q1 0] "2024-06-10T12:00:00.000Z"]).
Proof.
  split.
  - intros clock axios_post_json batch w.
    unfold processBatch_json, new_Date. cbn [http_log clock_reads].
    destruct (axios_post_json _ _) as [m|ps]; [reflexivity|].
    rewrite apply_conflicts_json_thrown.
    destruct (thrown_by ps); reflexivity.
  - split; [reflexivity|]. split; [reflexivity|].
    split; vm_compute; reflexivity.
Qed.

(** C5, the code at a success outcome for a record with two queued updates.
    The queue holds two updates of [R] and one row of [S]; the first update
    alone is sent and answered with [success] and the server identifier
    "srv-1".  Both rows of [R] leave the queue, so no single row accounts for
    the removal; when the request for the second update then fails, the pass
    ends with that update gone from the queue; and the record keeps no
    [server_id], the outcome's own one being read nowhere. *)
Theorem success_removes_all_rows_of_task :
  (let w := world_of [task_R "pending"; task_S] [item_q1 0; item_q2; item_q3] in
   let st := handle_processed tick [item_q1 0] (mkTally 0 0 [], w) success_R in
   sync_queue (snd st) = [item_q3]
   /\ ~ In item_q2 (sync_queue (snd st))
   /\ ~ (exists q, In q (sync_queue w)
                   /\ Permutation (q :: sync_queue (snd st)) (sync_queue w)))
  /\ (exists result w1,
         sync tick (answering_once [success_R]) 2 1
              (world_of [task_R "pending"] [item_q1 0; item_q2])
         = Some (result, w1)
         /\ map (fun req => map SyncQueueItem.id (items req)) (http_log w1)
            = [["q1"]; ["q2"]]
         /\ synced_items result = 1%nat
         /\ failed_items result = 1%nat
         /\ sync_queue w1 = []
         /\ Processed.server_id success_R = Some "srv-1"
         /\ map TaskRow.sync_status (tasks w1) = ["synced"]
         /\ map TaskRow.server_id (tasks w1) = [None]).
Proof.
  split.
  - cbv zeta. split; [reflexivity|]. split.
    + vm_compute. intros [H|[]]. discriminate H.
    + intros (q & _ & Hperm). apply Permutation_length in Hperm.
      vm_compute in Hperm. discriminate Hperm.
  - do 2 eexists. split; [vm_compute; reflexivity|]. repeat split.
Qed.

(** A task created offline and synced against the [/batch] route of the
    repository: one queue row is enqueued with the task [pending]; after the
    pass the task is [synced] and the queue is empty.  The route puts the
    server identifier beside the resolved data and not inside it, so the row
    keeps no [server_id]. *)
Example create_then_sync :
  let w1 := snd (createTask tick next_id [("title", JStr "A")]
                            (world_of [] [])) in
  map TaskRow.sync_status (tasks w1) = ["pending"]
  /\ map SyncQueueItem.operation (sync_queue w1) = ["create"]
  /\ exists result w2,
       sync tick (via_batch_route server_id_of tick) 1 50 w1 = Some (result, w2)
       /\ result = mkResult true 1 0 []
       /\ map TaskRow.sync_status (tasks w2) = ["synced"]
       /\ map TaskRow.server_id (tasks w2) = [None]
       /\ sync_queue w2 = [].
Proof.
  cbv zeta. split; [reflexivity|]. split; [reflexivity|].
  do 2 eexists. split; [vm_compute; reflexivity|]. repeat split.
Qed.
(** ** TaskService: soft delete and the not-found guard *)

Lemma unique_by_id (rows : list TaskRow.t) (a b : TaskRow.t) :
  NoDup (map TaskRow.id rows) ->
  In a rows -> In b rows -> TaskRow.id a = TaskRow.id b -> a = b.
Proof.
  induction rows as [|r rows IH]; simpl; [contradiction|].
  intros Hnd Ha Hb Hid. inversion Hnd as [|? ? Hnotin Hnd']; subst.
  destruct Ha as [Ha|Ha]; destruct Hb as [Hb|Hb]; subst; auto.
  - exfalso. apply Hnotin. rewrite Hid. now apply in_map.
  - exfalso. apply Hnotin. rewrite <- Hid. now apply in_map.
Qed.

Lemma select_task_unique (rows : list TaskRow.t) (r : TaskRow.t) :
  NoDup (map TaskRow.id rows) -> In r rows ->
  select_task (TaskRow.id r) rows = Some r.
Proof.
  intros Hnd Hin. unfold select_task.
  destruct (find _ rows) as [r0|] eqn:Hfind.
  - apply find_some in Hfind. destruct Hfind as [Hin0 Heq].
    apply String.eqb_eq in Heq. f_equal.
    now apply (unique_by_id rows).
  - apply (find_none _ _ Hfind) in Hin. now rewrite String.eqb_refl in Hin.
Qed.

Lemma select_live_task_none (id : string) (rows : list TaskRow.t) :
  (forall r, In r rows -> TaskRow.id r = id -> TaskRow.is_deleted r <> 0) ->
  select_live_task id rows = None.
Proof.
  intros Hnone. unfold select_live_task.
  destruct (find _ rows) as [r|] eqn:Hfind; [|reflexivity].
  apply find_some in Hfind. destruct Hfind as [Hin Hmatch].
  apply andb_true_iff in Hmatch. destruct Hmatch as [Hid Hlive].
  apply String.eqb_eq in Hid. apply Z.eqb_eq in Hlive.
  now destruct (Hnone r Hin Hid).
Qed.

Lemma getTask_flagged (id : string) (w : World) :
  (forall r, In r (tasks w) -> TaskRow.id r = id -> TaskRow.is_deleted r = 1) ->
  getTask id w = None.
Proof.
  intros Hflag. unfold getTask, select_task.
  destruct (find _ (tasks w)) as [r0|] eqn:Hfind; [|reflexivity].
  apply find_some in Hfind. destruct Hfind as [Hr0 Hid].
  apply String.eqb_eq in Hid. now rewrite (Hflag r0 Hr0 Hid).
Qed.

Lemma getAllTasks_flagged (id : string) (w : World) :
  (forall r, In r (tasks w) -> TaskRow.id r = id -> TaskRow.is_deleted r = 1) ->
  forall t, In t (getAllTasks w) -> Task.id t <> id.
Proof.
  intros Hflag t Ht Hid. unfold getAllTasks in Ht.
  apply in_map_iff in Ht. destruct Ht as (r0 & <- & Hr0).
  apply filter_In in Hr0. destruct Hr0 as [Hin0 Hl0].
  apply Z.eqb_eq in Hl0. rewrite (Hflag r0 Hin0 Hid) in Hl0. lia.
Qed.

(** C9. With identifiers unique in the table, a row whose [is_deleted] is 1
    is hidden from the read paths and still in the store: [getTask] on its
    identifier returns nothing, [getAllTasks] returns no deleted task and no
    task of that identifier, and the lookup by identifier finds the row.  [deleteTask]
    keeps every row of the table, and when it returns [true] the rows of the
    identifier carry the flag. *)
Theorem soft_deleted_hidden_but_stored
        (clock : nat -> Date) (uuidv4 : nat -> string)
        (w : World) (r : TaskRow.t) (id : string) :
  NoDup (map TaskRow.id (tasks w)) ->
  In r (tasks w) ->
  TaskRow.is_deleted r = 1 ->
  getTask (TaskRow.id r) w = None
  /\ (forall t, In t (getAllTasks w) ->
                Task.is_deleted t = false /\ Task.id t <> TaskRow.id r)
  /\ select_task (TaskRow.id r) (tasks w) = Some r
  /\ (let res := deleteTask clock uuidv4 id w in
      map TaskRow.id (tasks (snd res)) = map TaskRow.id (tasks w)
      /\ (fst res = true ->
          (exists r', In r' (tasks (snd res)) /\ TaskRow.id r' = id)
          /\ (forall r', In r' (tasks (snd res)) -> TaskRow.id r' = id ->
                         TaskRow.is_deleted r' = 1)
          /\ getTask id (snd res) = None
          /\ (forall t, In t (getAllTasks (snd res)) -> Task.id t <> id))).
Proof.
  intros Hnd Hin Hdel.
  pose proof (select_task_unique _ _ Hnd Hin) as Hsel.
  split; [|split; [|split]].
  - unfold getTask. rewrite Hsel, Hdel. reflexivity.
  - intros t Ht. unfold getAllTasks in Ht.
    apply in_map_iff in Ht. destruct Ht as (r0 & <- & Hr0).
    apply filter_In in Hr0. destruct Hr0 as [Hin0 Hlive].
    apply Z.eqb_eq in Hlive. simpl. split.
    + now rewrite Hlive.
    + intros Hid. rewrite (unique_by_id _ _ _ Hnd Hin0 Hin Hid) in Hlive. lia.
  - exact Hsel.
  - cbv zeta. unfold deleteTask.
    destruct (select_live_task id (tasks w)) as [live|] eqn:Hlive.
    + unfold new_Date, new_uuid, insert_sync_queue.
      cbn [fst snd tasks with_tasks with_sync_queue].
      set (rows := update_tasks _ id (tasks w)).
      assert (Hflag : forall r', In r' rows -> TaskRow.id r' = id ->
                                 TaskRow.is_deleted r' = 1).
      { intros r' Hr' Hid. apply update_tasks_hit in Hr'; trivial.
        now destruct Hr' as (r0 & _ & _ & ->). }
      split; [now apply update_tasks_ids|]. intros _.
      split; [|split; [exact Hflag|split]].
      * apply find_some in Hlive. destruct Hlive as [Hlin Hmatch].
        apply andb_true_iff in Hmatch. destruct Hmatch as [Hid _].
        apply String.eqb_eq in Hid.
        exists (TaskRow.set_deleted (clock (clock_reads w)) "pending" live).
        split; [|exact Hid]. unfold rows, update_tasks.
        apply in_map_iff. exists live. split; [|exact Hlin].
        apply String.eqb_eq in Hid. now rewrite Hid.
      * apply getTask_flagged. exact Hflag.
      * apply getAllTasks_flagged. exact Hflag.
    + cbn [fst snd]. split; [reflexivity|discriminate].
Qed.

Lemma soft_deleted_hidden_but_stored_witness :
  let w := world_of [task_R "synced"; task_D] [] in
  getTask "D" w = None
  /\ (forall t, In t (getAllTasks w) ->
                Task.is_deleted t = false /\ Task.id t <> "D")
  /\ select_task "D" (tasks w) = Some task_D
  /\ (let res := deleteTask tick next_id "R" w in
      map TaskRow.id (tasks (snd res)) = map TaskRow.id (tasks w)
      /\ (fst res = true ->
          (exists r', In r' (tasks (snd res)) /\ TaskRow.id r' = "R")
          /\ (forall r', In r' (tasks (snd res)) -> TaskRow.id r' = "R" ->
                         TaskRow.is_deleted r' = 1)
          /\ getTask "R" (snd res) = None
          /\ (forall t, In t (getAllTasks (snd res)) -> Task.id t <> "R"))).
Proof.
  apply (soft_deleted_hidden_but_stored tick next_id
           (world_of [task_R "synced"; task_D] []) task_D "R").
  - simpl. repeat constructor; simpl; intuition discriminate.
  - simpl. auto.
  - reflexivity.
Defined.

(** C10. When no row of the table has the identifier with [is_deleted] at 0,
    [updateTask] returns null and [deleteTask] returns false, and both leave
    the world as it was: no task row is changed and nothing is enqueued. *)
Theorem missing_task_untouched
        (clock : nat -> Date) (uuidv4 : nat -> string)
        (id : string) (updates : jsobj) (w : World) :
  (forall r, In r (tasks w) -> TaskRow.id r = id -> TaskRow.is_deleted r <> 0) ->
  updateTask clock uuidv4 id updates w = (None, w)
  /\ deleteTask clock uuidv4 id w = (false, w).
Proof.
  intros Hnone. unfold updateTask, deleteTask.
  now rewrite (select_live_task_none id (tasks w) Hnone).
Qed.

Lemma missing_task_untouched_witness :
  let w := world_of [task_R "synced"; task_D] [item_q3] in
  (updateTask tick next_id "D" [("title", JStr "again")] w = (None, w)
   /\ deleteTask tick next_id "D" w = (false, w))
  /\ (updateTask tick next_id "nobody" [("title", JStr "again")] w = (None, w)
      /\ deleteTask tick next_id "nobody" w = (false, w)).
Proof.
  split.
  - apply (missing_task_untouched tick next_id "D" [("title", JStr "again")]
             (world_of [task_R "synced"; task_D] [item_q3])).
    intros r [<-|[<-|[]]]; simpl; intros H; [discriminate H|lia].
  - apply (missing_task_untouched tick next_id "nobody"
             [("title", JStr "again")]
             (world_of [task_R "synced"; task_D] [item_q3])).
    intros r [<-|[<-|[]]]; simpl; intros H; discriminate H.
Defined.

(** * Further properties of the services and the routes *)

(** ** TaskService *)

Lemma select_task_app_fresh (id : string) (rows : list TaskRow.t)
      (r : TaskRow.t) :
  ~ In id (map TaskRow.id rows) -> TaskRow.id r = id ->
  select_task id (rows ++ [r]) = Some r.
Proof.
  intros Hfresh Hid. unfold select_task.
  induction rows as [|r0 rows IH]; simpl.
  - now rewrite Hid, String.eqb_refl.
  - simpl in Hfresh.
    destruct (String.eqb_spec (TaskRow.id r0) id) as [He|He].
    + exfalso. apply Hfresh. now left.
    + apply IH. intros Hin. apply Hfresh. now right.
Qed.



(** What [createTask] stores and returns, for a fresh identifier. *)
Lemma createTask_stored
        (clock : nat -> Date) (uuidv4 : nat -> string)
        (taskData : jsobj) (w : World) :
  ~ In (uuidv4 (uuid_reads w)) (map TaskRow.id (tasks w)) ->
  let id := uuidv4 (uuid_reads w) in
  let now := clock (clock_reads w) in
  let row :=
    TaskRow.mk id (bind_text (js_get "title" taskData))
               (bind_text (js_get "description" taskData))
               0 now now 0 "pending" None None in
  let task := fst (createTask clock uuidv4 taskData w) in
  let w' := snd (createTask clock uuidv4 taskData w) in
  task = Task.mk id (bind_text (js_get "title" taskData))
                 (bind_text (js_get "description" taskData))
                 false now now false (Some "pending") None None
  /\ tasks w' = tasks w ++ [row]
  /\ getTask id w' = Some (TaskRow.to_task row)
  /\ In (TaskRow.to_task row) (getAllTasks w')
  /\ In (TaskRow.to_task row) (getTasksNeedingSync w')
  /\ sync_queue w'
     = sync_queue w
         ++ [SyncQueueItem.mk
               (uuidv4 (S (uuid_reads w))) id "create"
               (JSON_stringify
                  [("id", JStr id);
                   ("title", js_get "title" taskData);
                   ("description", js_get "description" taskData);
                   ("completed", JBool false);
                   ("created_at", JStr now);
                   ("updated_at", JStr now);
                   ("is_deleted", JBool false);
                   ("sync_status", JStr "pending")])
               now 0 None].
Proof.
  intros Hfresh. cbv zeta.
  unfold createTask, new_uuid, new_Date, insert_sync_queue, with_tasks,
    with_sync_queue.
  cbn [fst snd tasks sync_queue uuid_reads clock_reads http_log Task.id
       Task.title Task.completed Task.is_deleted Task.sync_status
       Task.created_at Task.updated_at Task.description].
  set (row := TaskRow.mk _ _ _ _ _ _ _ _ _ _).
  split; [reflexivity|]. split; [reflexivity|].
  split; [|split; [|split]].
  - unfold getTask. cbn [tasks].
    now rewrite (select_task_app_fresh _ _ row Hfresh eq_refl).
  - unfold getAllTasks. cbn [tasks]. apply in_map.
    apply filter_In. split; [|reflexivity].
    apply in_or_app. right. now left.
  - unfold getTasksNeedingSync. cbn [tasks]. apply in_map.
    apply filter_In. split; [|reflexivity].
    apply in_or_app. right. now left.
  - reflexivity.
Qed.



Lemma js_get_set_same (k : string) (v : jsval) (o : jsobj) :
  js_get k (js_set k v o) = v.
Proof.
  induction o as [|[k0 v0] o IH]; simpl.
  - now rewrite String.eqb_refl.
  - destruct (String.eqb_spec k0 k) as [He|He]; simpl.
    + now rewrite String.eqb_refl.
    + destruct (String.eqb_spec k0 k); [contradiction|exact IH].
Qed.

Lemma js_get_set_other (k k' : string) (v : jsval) (o : jsobj) :
  k <> k' -> js_get k' (js_set k v o) = js_get k' o.
Proof.
  intros Hne. induction o as [|[k0 v0] o IH]; simpl.
  - destruct (String.eqb_spec k k'); [contradiction|reflexivity].
  - destruct (String.eqb_spec k0 k) as [He|He]; simpl.
    + subst k0. destruct (String.eqb_spec k k'); [contradiction|reflexivity].
    + destruct (String.eqb_spec k0 k'); [reflexivity|exact IH].
Qed.

Lemma js_get_spread_absent (k : string) (o2 : jsobj) :
  ~ In k (map fst o2) ->
  forall o, js_get k (js_spread o o2) = js_get k o.
Proof.
  unfold js_spread. induction o2 as [|[k0 v0] o2 IH]; simpl; intros Hk o;
    [reflexivity|].
  rewrite IH by tauto. apply js_get_set_other. tauto.
Qed.

Lemma js_get_spread_present (k : string) (v : jsval) (o2 : jsobj) :
  NoDup (map fst o2) -> In (k, v) o2 ->
  forall o, js_get k (js_spread o o2) = v.
Proof.
  induction o2 as [|[k0 v0] o2 IH]; simpl; intros Hnd Hin o; [contradiction|].
  inversion Hnd as [|? ? Hnotin Hnd']; subst.
  change (js_spread o ((k0, v0) :: o2)) with (js_spread (js_set k0 v0 o) o2).
  destruct Hin as [Heq|Hin].
  - inversion Heq; subst.
    rewrite js_get_spread_absent by exact Hnotin. apply js_get_set_same.
  - now apply IH.
Qed.

Lemma bind_text_of_text (x : option string) : bind_text (of_text x) = x.
Proof.
  now destruct x.
Qed.

Section TaskEdits.

Variable clock : nat -> Date.
Variable uuidv4 : nat -> string.

Lemma merged_get (existing : TaskRow.t) (updates : jsobj) (now : Date)
      (k : string) :
  k <> "updated_at" -> k <> "sync_status" ->
  js_get k (merged existing updates now)
  = js_get k (js_spread (TaskRow.to_object existing) updates).
Proof.
  intros H1 H2. unfold merged. apply js_get_spread_absent.
  simpl. intros [H|[H|[]]]; congruence.
Qed.

Lemma updateTask_found id updates w existing :
  select_live_task id (tasks w) = Some existing ->
  let now := clock (clock_reads w) in
  let updatedTask := merged existing updates now in
  fst (updateTask clock uuidv4 id updates w) = Some updatedTask
  /\ tasks (snd (updateTask clock uuidv4 id updates w))
     = update_tasks
         (TaskRow.set_edit
            (bind_text (js_get "title" updatedTask))
            (bind_text (js_get "description" updatedTask))
            (if truthy (js_get "completed" updatedTask) then 1 else 0)
            now "pending")
         id (tasks w)
  /\ sync_queue (snd (updateTask clock uuidv4 id updates w))
     = sync_queue w
         ++ [SyncQueueItem.mk (uuidv4 (uuid_reads w)) id "update"
               (JSON_stringify updatedTask) now 0 None].
Proof.
  intros Hlive. unfold updateTask. rewrite Hlive. repeat split.
Qed.

End TaskEdits.

(** X2. When the identifier names a live task, [updateTask] returns the merged
    object: the stored row spread first, the updates over it, then
    [updated_at] at the clock reading and [sync_status] [pending]; so every
    other key reads as the updates have it when they hold it (their keys
    distinct) and as the stored row has it when they do not.  Every row of
    the identifier becomes [pending] with that [updated_at] and keeps its
    [created_at], [is_deleted], [server_id] and [last_synced_at]; the rows of
    other identifiers are untouched; and the queue grows by exactly one
    [update] row for the task, carrying the merged object, with attempt
    count 0. *)
Theorem updateTask_marks_pending_and_enqueues
        (clock : nat -> Date) (uuidv4 : nat -> string)
        (id : string) (updates : jsobj) (w : World) (existing : TaskRow.t) :
  select_live_task id (tasks w) = Some existing ->
  let res := updateTask clock uuidv4 id updates w in
  let now := clock (clock_reads w) in
  (exists updatedTask,
      fst res = Some updatedTask
      /\ updatedTask
         = js_spread (js_spread (TaskRow.to_object existing) updates)
                     [("updated_at", JStr now); ("sync_status", JStr "pending")]
      /\ js_get "updated_at" updatedTask = JStr now
      /\ js_get "sync_status" updatedTask = JStr "pending"
      /\ (forall k, k <> "updated_at" -> k <> "sync_status" ->
                    ~ In k (map fst updates) ->
                    js_get k updatedTask
                    = js_get k (TaskRow.to_object existing))
      /\ (NoDup (map fst updates) ->
          forall k v, In (k, v) updates ->
                      k <> "updated_at" -> k <> "sync_status" ->
                      js_get k updatedTask = v)
      /\ sync_queue (snd res)
         = sync_queue w
             ++ [SyncQueueItem.mk (uuidv4 (uuid_reads w)) id "update"
                   (JSON_stringify updatedTask) now 0 None])
  /\ map TaskRow.id (tasks (snd res)) = map TaskRow.id (tasks w)
  /\ (forall r', In r' (tasks (snd res)) -> TaskRow.id r' = id ->
                 TaskRow.sync_status r' = "pending"
                 /\ TaskRow.updated_at r' = now
                 /\ exists r, In r (tasks w)
                              /\ same_record r r'
                              /\ TaskRow.server_id r' = TaskRow.server_id r
                              /\ TaskRow.last_synced_at r'
                                 = TaskRow.last_synced_at r)
  /\ (forall r', TaskRow.id r' <> id ->
                 (In r' (tasks (snd res)) <-> In r' (tasks w))).
Proof.
  intros Hlive. cbv zeta.
  destruct (updateTask_found clock uuidv4 id updates w existing Hlive)
    as (Hres & Htasks & Hqueue).
  split; [|split; [|split]].
  - eexists. split; [exact Hres|]. split; [reflexivity|].
    split; [|split; [|split; [|split; [|exact Hqueue]]]].
    + unfold merged, js_spread. simpl fold_left.
      rewrite js_get_set_other by discriminate. apply js_get_set_same.
    + unfold merged, js_spread. simpl fold_left. apply js_get_set_same.
    + intros k Hk1 Hk2 Hk. rewrite merged_get by assumption.
      now apply js_get_spread_absent.
    + intros Hnd k v Hin Hk1 Hk2. rewrite merged_get by assumption.
      now apply js_get_spread_present.
  - rewrite Htasks. now apply update_tasks_ids.
  - intros r' Hr' Hid. rewrite Htasks in Hr'.
    apply update_tasks_hit in Hr'; trivial.
    destruct Hr' as (r & Hin & _ & ->).
    split; [reflexivity|]. split; [reflexivity|].
    exists r. repeat split; trivial.
  - intros r' Hne. rewrite Htasks. now apply update_tasks_miss.
Qed.

Lemma updateTask_marks_pending_and_enqueues_witness :
  let w := world_of [task_R_done; task_S] [item_q3] in
  let updates := [("title", JStr "A2")] in
  let res := updateTask tick next_id "R" updates w in
  let now := tick 0 in
  (exists updatedTask,
      fst res = Some updatedTask
      /\ updatedTask
         = js_spread (js_spread (TaskRow.to_object task_R_done) updates)
                     [("updated_at", JStr now); ("sync_status", JStr "pending")]
      /\ js_get "updated_at" updatedTask = JStr now
      /\ js_get "sync_status" updatedTask = JStr "pending"
      /\ (forall k, k <> "updated_at" -> k <> "sync_status" ->
                    ~ In k (map fst updates) ->
                    js_get k updatedTask
                    = js_get k (TaskRow.to_object task_R_done))
      /\ (NoDup (map fst updates) ->
          forall k v, In (k, v) updates ->
                      k <> "updated_at" -> k <> "sync_status" ->
                      js_get k updatedTask = v)
      /\ sync_queue (snd res)
         = sync_queue w
             ++ [SyncQueueItem.mk (next_id 0) "R" "update"
                   (JSON_stringify updatedTask) now 0 None])
  /\ map TaskRow.id (tasks (snd res)) = map TaskRow.id (tasks w)
  /\ (forall r', In r' (tasks (snd res)) -> TaskRow.id r' = "R" ->
                 TaskRow.sync_status r' = "pending"
                 /\ TaskRow.updated_at r' = now
                 /\ exists r, In r (tasks w)
                              /\ same_record r r'
                              /\ TaskRow.server_id r' = TaskRow.server_id r
                              /\ TaskRow.last_synced_at r'
                                 = TaskRow.last_synced_at r)
  /\ (forall r', TaskRow.id r' <> "R" ->
                 (In r' (tasks (snd res)) <-> In r' (tasks w))).
Proof.
  apply (updateTask_marks_pending_and_enqueues tick next_id "R"
           [("title", JStr "A2")]
           (world_of [task_R_done; task_S] [item_q3]) task_R_done).
  reflexivity.
Defined.

(** X3. [updateTask] merges: for a live task and updates whose keys are
    distinct, a key the updates do not hold leaves the column as the stored
    row has it ([completed] read back as 0 or 1); a string under [title] or
    [description] replaces the column, an [undefined] description clears it;
    a boolean under [completed] sets the column to 1 or 0, and an [undefined]
    one sets it to 0. *)
Theorem updateTask_merges_fields
        (clock : nat -> Date) (uuidv4 : nat -> string)
        (id : string) (updates : jsobj) (w : World) (existing : TaskRow.t) :
  select_live_task id (tasks w) = Some existing ->
  NoDup (map fst updates) ->
  forall r', In r' (tasks (snd (updateTask clock uuidv4 id updates w))) ->
             TaskRow.id r' = id ->
    (~ In "title" (map fst updates) ->
     TaskRow.title r' = TaskRow.title existing)
    /\ (forall s, In ("title", JStr s) updates -> TaskRow.title r' = Some s)
    /\ (~ In "description" (map fst updates) ->
        TaskRow.description r' = TaskRow.description existing)
    /\ (forall s, In ("description", JStr s) updates ->
                  TaskRow.description r' = Some s)
    /\ (In ("description", JUndefined) updates ->
        TaskRow.description r' = None)
    /\ (~ In "completed" (map fst updates) ->
        TaskRow.completed r'
        = if TaskRow.completed existing =? 0 then 0 else 1)
    /\ (forall b, In ("completed", JBool b) updates ->
                  TaskRow.completed r' = if b then 1 else 0)
    /\ (In ("completed", JUndefined) updates -> TaskRow.completed r' = 0).
Proof.
  intros Hlive Hnd r' Hr' Hid.
  destruct (updateTask_found clock uuidv4 id updates w existing Hlive)
    as (_ & Htasks & _).
  rewrite Htasks in Hr'. apply update_tasks_hit in Hr'; trivial.
  destruct Hr' as (r & _ & _ & ->).
  cbn [TaskRow.title TaskRow.description TaskRow.completed TaskRow.set_edit].
  rewrite !merged_get by discriminate.
  split; [|split; [|split; [|split; [|split; [|split; [|split]]]]]].
  - intros Habs. rewrite js_get_spread_absent by exact Habs.
    apply bind_text_of_text.
  - intros s Hv. now rewrite (js_get_spread_present _ (JStr s)).
  - intros Habs. rewrite js_get_spread_absent by exact Habs.
    apply bind_text_of_text.
  - intros s Hv. now rewrite (js_get_spread_present _ (JStr s)).
  - intros Hv. now rewrite (js_get_spread_present _ JUndefined).
  - intros Habs. rewrite js_get_spread_absent by exact Habs.
    cbn. now destruct (TaskRow.completed existing =? 0).
  - intros b Hv. now rewrite (js_get_spread_present _ (JBool b)).
  - intros Hv. now rewrite (js_get_spread_present _ JUndefined).
Qed.

Lemma updateTask_merges_fields_witness :
  let updates := [("title", JStr "A2"); ("completed", JUndefined)] in
  let r' := TaskRow.set_edit (Some "A2") (Some "notes") 0 (tick 0) "pending"
                             task_R_done in
  (~ In "title" (map fst updates) ->
   TaskRow.title r' = TaskRow.title task_R_done)
  /\ (forall s, In ("title", JStr s) updates -> TaskRow.title r' = Some s)
  /\ (~ In "description" (map fst updates) ->
      TaskRow.description r' = TaskRow.description task_R_done)
  /\ (forall s, In ("description", JStr s) updates ->
                TaskRow.description r' = Some s)
  /\ (In ("description", JUndefined) updates ->
      TaskRow.description r' = None)
  /\ (~ In "completed" (map fst updates) ->
      TaskRow.completed r'
      = if TaskRow.completed task_R_done =? 0 then 0 else 1)
  /\ (forall b, In ("completed", JBool b) updates ->
                TaskRow.completed r' = if b then 1 else 0)
  /\ (In ("completed", JUndefined) updates -> TaskRow.completed r' = 0).
Proof.
  apply (updateTask_merges_fields tick next_id "R"
           [("title", JStr "A2"); ("completed", JUndefined)]
           (world_of [task_R_done; task_S] []) task_R_done).
  - reflexivity.
  - simpl. repeat constructor; simpl; intuition discriminate.
  - simpl. auto.
  - reflexivity.
Defined.

Lemma select_live_task_some (id : string) (rows : list TaskRow.t)
      (r : TaskRow.t) :
  select_live_task id rows = Some r ->
  In r rows /\ TaskRow.id r = id /\ TaskRow.is_deleted r = 0.
Proof.
  unfold select_live_task. intros Hfind. apply find_some in Hfind.
  destruct Hfind as [Hin Hmatch]. apply andb_true_iff in Hmatch.
  destruct Hmatch as [Hid Hlive].
  apply String.eqb_eq in Hid. apply Z.eqb_eq in Hlive. auto.
Qed.

Lemma deleteTask_found (clock : nat -> Date) (uuidv4 : nat -> string)
      (id : string) (w : World) (existing : TaskRow.t) :
  select_live_task id (tasks w) = Some existing ->
  let now := clock (clock_reads w) in
  fst (deleteTask clock uuidv4 id w) = true
  /\ tasks (snd (deleteTask clock uuidv4 id w))
     = update_tasks (TaskRow.set_deleted now "pending") id (tasks w)
  /\ sync_queue (snd (deleteTask clock uuidv4 id w))
     = sync_queue w
         ++ [SyncQueueItem.mk (uuidv4 (uuid_reads w)) id "delete"
               [("id", JStr id); ("is_deleted", JBool true);
                ("updated_at", JStr now)]
               now 0 None].
Proof.
  intros Hlive. unfold deleteTask. rewrite Hlive. repeat split.
Qed.

(** X4. Deleting a live task returns [true], flags every row of the
    identifier as deleted and [pending] and enqueues one [delete] row whose
    payload holds the identifier, the flag and the instant.  From then on the
    task is gone for the mutating operations, [deleteTask] returns [false]
    and [updateTask] returns null, each without changing anything, while
    [getTasksNeedingSync] still lists the task, now marked deleted. *)
Theorem deleteTask_then_gone_but_pending
        (clock : nat -> Date) (uuidv4 : nat -> string)
        (id : string) (w : World) (existing : TaskRow.t) :
  select_live_task id (tasks w) = Some existing ->
  let res := deleteTask clock uuidv4 id w in
  let w' := snd res in
  let now := clock (clock_reads w) in
  fst res = true
  /\ sync_queue w'
     = sync_queue w
         ++ [SyncQueueItem.mk (uuidv4 (uuid_reads w)) id "delete"
               [("id", JStr id); ("is_deleted", JBool true);
                ("updated_at", JStr now)]
               now 0 None]
  /\ (forall r', In r' (tasks w') -> TaskRow.id r' = id ->
                 TaskRow.is_deleted r' = 1
                 /\ TaskRow.sync_status r' = "pending"
                 /\ TaskRow.updated_at r' = now)
  /\ (forall r', TaskRow.id r' <> id -> (In r' (tasks w') <-> In r' (tasks w)))
  /\ deleteTask clock uuidv4 id w' = (false, w')
  /\ (forall updates, updateTask clock uuidv4 id updates w' = (None, w'))
  /\ (exists t, In t (getTasksNeedingSync w')
                /\ Task.id t = id /\ Task.is_deleted t = true).
Proof.
  intros Hlive. cbv zeta.
  destruct (deleteTask_found clock uuidv4 id w existing Hlive)
    as (Hres & Htasks & Hqueue).
  destruct (select_live_task_some _ _ _ Hlive) as (Hin & Hid & _).
  set (w' := snd (deleteTask clock uuidv4 id w)) in *.
  assert (Hflag : forall r', In r' (tasks w') -> TaskRow.id r' = id ->
                             TaskRow.is_deleted r' = 1
                             /\ TaskRow.sync_status r' = "pending"
                             /\ TaskRow.updated_at r'
                                = clock (clock_reads w)).
  { intros r' Hr' Hid'. rewrite Htasks in Hr'.
    apply update_tasks_hit in Hr'; trivial.
    destruct Hr' as (r & _ & _ & ->). now repeat split. }
  assert (Hnone : select_live_task id (tasks w') = None).
  { apply select_live_task_none. intros r Hr Hr_id.
    destruct (Hflag r Hr Hr_id) as [-> _]. discriminate. }
  split; [exact Hres|]. split; [exact Hqueue|]. split; [exact Hflag|].
  split; [|split; [|split]].
  - intros r' Hne. rewrite Htasks. now apply update_tasks_miss.
  - unfold deleteTask. now rewrite Hnone.
  - intros updates. unfold updateTask. now rewrite Hnone.
  - exists (TaskRow.to_task
              (TaskRow.set_deleted (clock (clock_reads w)) "pending" existing)).
    split; [|split; [exact Hid|reflexivity]].
    unfold getTasksNeedingSync. apply in_map. apply filter_In.
    split; [|reflexivity].
    rewrite Htasks. unfold update_tasks. apply in_map_iff.
    exists existing. split; [|exact Hin].
    apply String.eqb_eq in Hid. now rewrite Hid.
Qed.

Lemma deleteTask_then_gone_but_pending_witness :
  let w := world_of [task_R_done; task_S] [item_q3] in
  let res := deleteTask tick next_id "R" w in
  let w' := snd res in
  let now := tick 0 in
  fst res = true
  /\ sync_queue w'
     = sync_queue w
         ++ [SyncQueueItem.mk (next_id 0) "R" "delete"
               [("id", JStr "R"); ("is_deleted", JBool true);
                ("updated_at", JStr now)]
               now 0 None]
  /\ (forall r', In r' (tasks w') -> TaskRow.id r' = "R" ->
                 TaskRow.is_deleted r' = 1
                 /\ TaskRow.sync_status r' = "pending"
                 /\ TaskRow.updated_at r' = now)
  /\ (forall r', TaskRow.id r' <> "R" -> (In r' (tasks w') <-> In r' (tasks w)))
  /\ deleteTask tick next_id "R" w' = (false, w')
  /\ (forall updates, updateTask tick next_id "R" updates w' = (None, w'))
  /\ (exists t, In t (getTasksNeedingSync w')
                /\ Task.id t = "R" /\ Task.is_deleted t = true).
Proof.
  apply (deleteTask_then_gone_but_pending tick next_id "R"
           (world_of [task_R_done; task_S] [item_q3]) task_R_done).
  reflexivity.
Defined.

(** ** SyncService: the pass *)

(** X5. On an empty queue a pass posts nothing and changes nothing, whatever
    the batch size, and reports success with no item synced or failed. *)
Theorem sync_on_empty_queue
        (clock : nat -> Date)
        (axios_post : nat -> BatchSyncRequest -> string + BatchSyncResponse)
        (fuel : nat) (batchSize : Z) (w : World) :
  sync_queue w = [] ->
  sync clock axios_post fuel batchSize w = Some (mkResult true 0 0 [], w).
Proof.
  intros Hempty. unfold sync. rewrite Hempty.
  destruct fuel; reflexivity.
Qed.

Lemma sync_on_empty_queue_witness :
  sync tick offline 0 (-1) (world_of [task_R "synced"] [])
  = Some (mkResult true 0 0 [], world_of [task_R "synced"] []).
Proof.
  apply (sync_on_empty_queue tick offline 0 (-1)
           (world_of [task_R "synced"] [])).
  reflexivity.
Defined.

Lemma batches_from_stuck {A : Type} (queueItems : list A) (batchSize : Z) :
  batchSize <= 0 -> queueItems <> [] ->
  forall fuel i, i <= 0 -> batches_from fuel queueItems batchSize i = None.
Proof.
  intros Hbs Hne.
  assert (Hlen : 0 < Z.of_nat (length queueItems)).
  { destruct queueItems; [contradiction|simpl; lia]. }
  induction fuel as [|fuel IH]; intros i Hi; simpl;
    destruct (Z.ltb_spec i (Z.of_nat (length queueItems))); try lia;
    [reflexivity|].
  rewrite IH by lia. reflexivity.
Qed.

(** X6. With a batch size of zero or below and a queue that is not empty the
    batching loop never reaches its end: whatever the number of turns allowed,
    the pass returns nothing. *)
Theorem sync_never_ends_on_bad_batch_size
        (clock : nat -> Date)
        (axios_post : nat -> BatchSyncRequest -> string + BatchSyncResponse)
        (batchSize : Z) (w : World) :
  batchSize <= 0 ->
  sync_queue w <> [] ->
  forall fuel, sync clock axios_post fuel batchSize w = None.
Proof.
  intros Hbs Hne fuel. unfold sync.
  rewrite batches_from_stuck; trivial; [|lia].
  intros Hnil.
  pose proof (Permutation_length (order_by_created_at_perm (sync_queue w)))
    as Hlen.
  rewrite Hnil in Hlen. destruct (sync_queue w); [contradiction|discriminate].
Qed.

Lemma sync_never_ends_on_bad_batch_size_witness :
  sync tick offline 1000 0 (world_of [task_R "pending"] [item_q1 0]) = None.
Proof.
  apply (sync_never_ends_on_bad_batch_size tick offline 0
           (world_of [task_R "pending"] [item_q1 0])).
  - lia.
  - discriminate.
Defined.

Section Accounting.

Variable clock : nat -> Date.
Variable axios_post : nat -> BatchSyncRequest -> string + BatchSyncResponse.

Lemma handle_processed_accounts batch c w p :
  length (errs c) = failedItems c ->
  length (errs (fst (handle_processed clock batch (c, w) p)))
  = failedItems (fst (handle_processed clock batch (c, w) p)).
Proof.
  intros Hc. unfold handle_processed.
  destruct (String.eqb _ _); unfold new_Date; cbn [fst errs failedItems];
    [exact Hc|].
  rewrite length_app. simpl. lia.
Qed.

Lemma run_batch_accounts st batch :
  length (errs (fst st)) = failedItems (fst st) ->
  length (errs (fst (run_batch clock axios_post st batch)))
  = failedItems (fst (run_batch clock axios_post st batch)).
Proof.
  destruct st as [c w]. cbn [fst]. intros Hc. unfold run_batch.
  destruct (processBatch clock axios_post batch w) as [[m|resp] w1].
  - pose proof (handle_thrown_errors clock m batch (errs c) w1) as Hlen.
    destruct (fold_left _ batch _) as [es w2]. cbn [fst] in *.
    cbn [errs failedItems]. lia.
  - apply (fold_left_inv
             (fun st' => length (errs (fst st')) = failedItems (fst st'))).
    + intros [c' w'] p _ Hc'. now apply handle_processed_accounts.
    + exact Hc.
Qed.

Lemma sync_accounts fuel batchSize w result w' :
  sync clock axios_post fuel batchSize w = Some (result, w') ->
  length (errors result) = failed_items result.
Proof.
  unfold sync. destruct (batches_from _ _ _ _) as [batches|]; [|discriminate].
  destruct (fold_left _ batches _) as [c w1] eqn:Hfold.
  intros H. inversion H; subst. cbn [errors failed_items].
  change c with (fst (c, w')). rewrite <- Hfold.
  apply (fold_left_inv
           (fun st' => length (errs (fst st')) = failedItems (fst st'))).
  - intros a b _. apply run_batch_accounts.
  - reflexivity.
Qed.

End Accounting.

(** X7. The summary of a pass is consistent: [errors] holds exactly one entry
    per failed item, and [success] is true exactly when [errors] is empty. *)
Theorem sync_summary_consistent
        (clock : nat -> Date)
        (axios_post : nat -> BatchSyncRequest -> string + BatchSyncResponse)
        (fuel : nat) (batchSize : Z) (w : World)
        (result : SyncResult) (w' : World) :
  sync clock axios_post fuel batchSize w = Some (result, w') ->
  length (errors result) = failed_items result
  /\ (success result = true <-> errors result = []).
Proof.
  intros Hsync.
  pose proof (sync_accounts clock axios_post _ _ _ _ _ Hsync) as Hlen.
  split; [exact Hlen|].
  assert (Hs : success result = Nat.eqb (failed_items result) 0).
  { unfold sync in Hsync.
    destruct (batches_from _ _ _ _); [|discriminate].
    destruct (fold_left _ _ _). inversion Hsync. reflexivity. }
  rewrite Hs, Nat.eqb_eq, <- Hlen. apply length_zero_iff_nil.
Qed.

Lemma sync_summary_consistent_witness :
  exists result w',
    sync tick (answering [error_R]) 1 50
         (world_of [task_R "pending"] [item_q1 0]) = Some (result, w')
    /\ length (errors result) = failed_items result
    /\ (success result = true <-> errors result = []).
Proof.
  do 2 eexists. split; [vm_compute; reflexivity|].
  eapply (sync_summary_consistent tick (answering [error_R]) 1 50
            (world_of [task_R "pending"] [item_q1 0])).
  vm_compute. reflexivity.
Defined.

(** ** What a pass leaves alone *)

Lemma same_record_refl r : same_record r r.
Proof. now repeat split. Qed.

Lemma same_queue_entry_refl q : same_queue_entry q q.
Proof. now repeat split. Qed.

Lemma rows_kept_refl ts : rows_kept ts ts.
Proof.
  split; [reflexivity|]. intros r Hr. exists r. split; [exact Hr|].
  apply same_record_refl.
Qed.

Lemma rows_kept_trans ts1 ts2 ts3 :
  rows_kept ts1 ts2 -> rows_kept ts2 ts3 -> rows_kept ts1 ts3.
Proof.
  intros [Hid12 H12] [Hid23 H23]. split; [congruence|].
  intros r3 Hr3. destruct (H23 r3 Hr3) as (r2 & Hr2 & Ha & Hb & Hc).
  destruct (H12 r2 Hr2) as (r1 & Hr1 & Ha' & Hb' & Hc').
  exists r1. split; [exact Hr1|]. repeat split; congruence.
Qed.

Lemma rows_kept_update set id ts :
  (forall r, same_record r (set r)) ->
  rows_kept ts (update_tasks set id ts).
Proof.
  intros Hset. split.
  - apply update_tasks_ids. intros r. now destruct (Hset r).
  - intros r' Hr'. apply in_map_iff in Hr'. destruct Hr' as (r & <- & Hr).
    exists r. split; [exact Hr|].
    destruct (String.eqb _ _); [apply Hset|apply same_record_refl].
Qed.

Lemma entries_kept_refl qs : entries_kept qs qs.
Proof.
  split; [lia|]. intros q Hq. exists q. split; [exact Hq|].
  apply same_queue_entry_refl.
Qed.

Lemma entries_kept_trans qs1 qs2 qs3 :
  entries_kept qs1 qs2 -> entries_kept qs2 qs3 -> entries_kept qs1 qs3.
Proof.
  intros [Hl12 H12] [Hl23 H23]. split; [lia|].
  intros q3 Hq3. destruct (H23 q3 Hq3) as (q2 & Hq2 & A1 & A2 & A3 & A4 & A5).
  destruct (H12 q2 Hq2) as (q1 & Hq1 & B1 & B2 & B3 & B4 & B5).
  exists q1. split; [exact Hq1|]. repeat split; congruence.
Qed.

Lemma entries_kept_retry n message id qs :
  entries_kept qs (update_sync_queue (SyncQueueItem.set_retry n message) id qs).
Proof.
  split.
  - unfold update_sync_queue. rewrite length_map. lia.
  - intros q' Hq'. apply in_map_iff in Hq'. destruct Hq' as (q & <- & Hq).
    exists q. split; [exact Hq|].
    destruct (String.eqb _ _); now repeat split.
Qed.

Lemma entries_kept_delete taskId qs :
  entries_kept qs (delete_sync_queue_by_task taskId qs).
Proof.
  split.
  - apply filter_length_le.
  - intros q' Hq'. apply filter_In in Hq'. exists q'.
    split; [tauto|apply same_queue_entry_refl].
Qed.

Section Frame.

Variable clock : nat -> Date.
Variable axios_post : nat -> BatchSyncRequest -> string + BatchSyncResponse.

Lemma kept_refl w : pass_kept w w.
Proof.
  split; [apply rows_kept_refl|]. split; [apply entries_kept_refl|reflexivity].
Qed.

Lemma kept_trans w1 w2 w3 : pass_kept w1 w2 -> pass_kept w2 w3 -> pass_kept w1 w3.
Proof.
  intros (A1 & A2 & A3) (B1 & B2 & B3). split; [|split].
  - eapply rows_kept_trans; eassumption.
  - eapply entries_kept_trans; eassumption.
  - congruence.
Qed.

Lemma updateSyncStatus_uuid taskId status serverData w :
  uuid_reads (updateSyncStatus clock taskId status serverData w) = uuid_reads w.
Proof.
  unfold updateSyncStatus. simpl.
  destruct serverData as [d|]; [destruct (Task.server_id d) as [sv|];
    [destruct (String.eqb sv EmptyString)|]|];
    destruct (String.eqb status "synced"); reflexivity.
Qed.

Lemma updateSyncStatus_kept taskId status serverData w :
  pass_kept w (updateSyncStatus clock taskId status serverData w).
Proof.
  split; [|split].
  - rewrite updateSyncStatus_tasks. cbv zeta.
    destruct (recorded_server_id serverData) as [sv|].
    + eapply rows_kept_trans; apply rows_kept_update;
        intros r; now repeat split.
    + apply rows_kept_update. intros r; now repeat split.
  - rewrite updateSyncStatus_queue.
    destruct (String.eqb status "synced");
      [apply entries_kept_delete|apply entries_kept_refl].
  - apply updateSyncStatus_uuid.
Qed.

Lemma handleSyncError_kept item message w :
  pass_kept w (handleSyncError item message w).
Proof.
  split; [|split].
  - rewrite handleSyncError_tasks. destruct (3 <=? _).
    + apply rows_kept_update. intros r; now repeat split.
    + apply rows_kept_refl.
  - rewrite handleSyncError_queue. apply entries_kept_retry.
  - unfold handleSyncError. destruct (3 <=? _); reflexivity.
Qed.

Lemma apply_conflict_kept w p : pass_kept w (apply_conflict w p).
Proof.
  unfold apply_conflict.
  destruct (String.eqb _ _); [destruct (Processed.resolved_data p)|];
    try apply kept_refl.
  split; [|split; [apply entries_kept_refl|reflexivity]].
  apply rows_kept_update. intros r; now repeat split.
Qed.

Lemma fold_kept {B : Type} (f : World -> B -> World) (l : list B) :
  (forall w b, pass_kept w (f w b)) ->
  forall w, pass_kept w (fold_left f l w).
Proof.
  intros Hf. induction l as [|b l IH]; intros w; simpl; [apply kept_refl|].
  eapply kept_trans; [apply Hf|apply IH].
Qed.

Lemma processBatch_kept batch w :
  pass_kept w (snd (processBatch clock axios_post batch w)).
Proof.
  unfold processBatch. simpl.
  destruct (axios_post _ _) as [m|resp]; cbn [snd].
  - split; [apply rows_kept_refl|].
    split; [apply entries_kept_refl|reflexivity].
  - eapply kept_trans; [|apply fold_kept; apply apply_conflict_kept].
    split; [apply rows_kept_refl|].
    split; [apply entries_kept_refl|reflexivity].
Qed.

Lemma handle_processed_kept batch c w p :
  pass_kept w (snd (handle_processed clock batch (c, w) p)).
Proof.
  unfold handle_processed.
  destruct (String.eqb _ _); unfold new_Date; cbn [snd].
  - apply updateSyncStatus_kept.
  - eapply kept_trans; [|apply updateSyncStatus_kept].
    split; [apply rows_kept_refl|].
    split; [apply entries_kept_refl|reflexivity].
Qed.

Lemma handle_thrown_kept message es w item :
  pass_kept w (snd (handle_thrown clock message (es, w) item)).
Proof.
  unfold handle_thrown, new_Date. cbn [snd].
  eapply kept_trans; [apply handleSyncError_kept|].
  split; [apply rows_kept_refl|].
  split; [apply entries_kept_refl|reflexivity].
Qed.

Lemma fold_kept_snd {A B : Type} (f : A * World -> B -> A * World)
      (l : list B) :
  (forall a w b, pass_kept w (snd (f (a, w) b))) ->
  forall st, pass_kept (snd st) (snd (fold_left f l st)).
Proof.
  intros Hf. induction l as [|b l IH]; intros [a w]; simpl;
    [apply kept_refl|].
  eapply kept_trans; [apply (Hf a w b)|apply IH].
Qed.

Lemma run_batch_kept c w batch :
  pass_kept w (snd (run_batch clock axios_post (c, w) batch)).
Proof.
  unfold run_batch.
  pose proof (processBatch_kept batch w) as Hp.
  destruct (processBatch clock axios_post batch w) as [[m|resp] w1];
    cbn [snd] in Hp.
  - pose proof (fold_kept_snd (handle_thrown clock m) batch
                  (handle_thrown_kept m) (errs c, w1)) as Hf.
    destruct (fold_left _ batch _) as [es w2]. cbn [snd] in *.
    eapply kept_trans; eassumption.
  - eapply kept_trans; [exact Hp|].
    apply (fold_kept_snd (handle_processed clock batch)
             (processed_items resp) (handle_processed_kept batch) (c, w1)).
Qed.

Lemma sync_kept fuel batchSize w result w' :
  sync clock axios_post fuel batchSize w = Some (result, w') ->
  pass_kept w w'.
Proof.
  unfold sync. destruct (batches_from _ _ _ _) as [batches|]; [|discriminate].
  pose proof (fold_kept_snd (run_batch clock axios_post) batches
                run_batch_kept (mkTally 0 0 [], w)) as Hf.
  destruct (fold_left _ batches _) as [c w1].
  intros H. inversion H; subst. exact Hf.
Qed.

End Frame.

(** X8. A pass never adds or drops a task row and never changes a task's
    identifier, creation instant or deletion flag; it never enqueues, and the
    rows left in the queue are rows that were there, with the same identifier,
    task, operation, payload and enqueue instant; it draws no identifier from
    the generator. *)
Theorem sync_leaves_records_and_payloads
        (clock : nat -> Date)
        (axios_post : nat -> BatchSyncRequest -> string + BatchSyncResponse)
        (fuel : nat) (batchSize : Z) (w : World)
        (result : SyncResult) (w' : World) :
  sync clock axios_post fuel batchSize w = Some (result, w') ->
  map TaskRow.id (tasks w') = map TaskRow.id (tasks w)
  /\ (forall r', In r' (tasks w') ->
                 exists r, In r (tasks w)
                           /\ TaskRow.id r' = TaskRow.id r
                           /\ TaskRow.created_at r' = TaskRow.created_at r
                           /\ TaskRow.is_deleted r' = TaskRow.is_deleted r)
  /\ (length (sync_queue w') <= length (sync_queue w))%nat
  /\ (forall q', In q' (sync_queue w') ->
                 exists q, In q (sync_queue w)
                           /\ SyncQueueItem.id q' = SyncQueueItem.id q
                           /\ SyncQueueItem.task_id q' = SyncQueueItem.task_id q
                           /\ SyncQueueItem.operation q'
                              = SyncQueueItem.operation q
                           /\ SyncQueueItem.data q' = SyncQueueItem.data q
                           /\ SyncQueueItem.created_at q'
                              = SyncQueueItem.created_at q)
  /\ uuid_reads w' = uuid_reads w.
Proof.
  intros Hsync.
  destruct (sync_kept clock axios_post _ _ _ _ _ Hsync)
    as ((Hids & Hrows) & (Hlen & Hq) & Huuid).
  repeat split; trivial.
Qed.

Lemma sync_leaves_records_and_payloads_witness :
  let w := world_of [task_R "pending"; task_S] [item_q1 2; item_q3] in
  exists result w',
    sync tick (answering_once [success_R]) 2 1 w = Some (result, w')
    /\ map TaskRow.id (tasks w') = map TaskRow.id (tasks w)
    /\ (forall r', In r' (tasks w') ->
                   exists r, In r (tasks w)
                             /\ TaskRow.id r' = TaskRow.id r
                             /\ TaskRow.created_at r' = TaskRow.created_at r
                             /\ TaskRow.is_deleted r' = TaskRow.is_deleted r)
    /\ (length (sync_queue w') <= length (sync_queue w))%nat
    /\ (forall q', In q' (sync_queue w') ->
                   exists q, In q (sync_queue w)
                             /\ SyncQueueItem.id q' = SyncQueueItem.id q
                             /\ SyncQueueItem.task_id q'
                                = SyncQueueItem.task_id q
                             /\ SyncQueueItem.operation q'
                                = SyncQueueItem.operation q
                             /\ SyncQueueItem.data q' = SyncQueueItem.data q
                             /\ SyncQueueItem.created_at q'
                                = SyncQueueItem.created_at q)
    /\ uuid_reads w' = uuid_reads w.
Proof.
  cbv zeta. do 2 eexists. split; [vm_compute; reflexivity|].
  eapply (sync_leaves_records_and_payloads tick (answering_once [success_R])
            2 1 (world_of [task_R "pending"; task_S] [item_q1 2; item_q3])).
  vm_compute. reflexivity.
Defined.

(** ** A pass against an authority that confirms everything *)

Section Confirmed.

Variable clock : nat -> Date.
Variable axios_post : nat -> BatchSyncRequest -> string + BatchSyncResponse.
Hypothesis Hconfirms : confirms_every_item axios_post.

Lemma apply_conflict_success w p :
  Processed.status p = "success" -> apply_conflict w p = w.
Proof.
  intros Hs. unfold apply_conflict. now rewrite Hs.
Qed.

Lemma apply_conflicts_success ps :
  Forall (fun p => Processed.status p = "success") ps ->
  forall w, fold_left apply_conflict ps w = w.
Proof.
  induction 1 as [|p ps Hp _ IH]; intros w; simpl; [reflexivity|].
  now rewrite apply_conflict_success, IH.
Qed.

Lemma processBatch_confirmed batch w :
  exists ps w1,
    processBatch clock axios_post batch w = (inr (mkResponse ps), w1)
    /\ tasks w1 = tasks w
    /\ sync_queue w1 = sync_queue w
    /\ map Processed.client_id ps = map SyncQueueItem.task_id batch
    /\ Forall (fun p => Processed.status p = "success") ps.
Proof.
  unfold processBatch, new_Date. cbn [tasks sync_queue clock_reads http_log
                                      uuid_reads].
  destruct (Hconfirms (length (http_log w))
                      (mkRequest batch (clock (clock_reads w))))
    as (ps & Hpost & Hids & Hall).
  rewrite Hpost. cbn [processed_items].
  rewrite (apply_conflicts_success ps Hall).
  eexists. eexists. split; [reflexivity|]. now repeat split.
Qed.

(** The loop over the outcomes of one answer, all of them [success]. *)
Lemma handle_confirmed batch ps :
  Forall (fun p => Processed.status p = "success") ps ->
  forall c w,
    let st := fold_left (handle_processed clock batch) ps (c, w) in
    syncedItems (fst st) = (syncedItems c + length ps)%nat
    /\ failedItems (fst st) = failedItems c
    /\ errs (fst st) = errs c
    /\ (forall q, In q (sync_queue (snd st))
                  <-> In q (sync_queue w)
                      /\ ~ In (SyncQueueItem.task_id q)
                              (map Processed.client_id ps))
    /\ (forall done,
           (forall r, In r (tasks w) -> In (TaskRow.id r) done ->
                      TaskRow.sync_status r = "synced") ->
           forall r', In r' (tasks (snd st)) ->
                      In (TaskRow.id r') (map Processed.client_id ps ++ done) ->
                      TaskRow.sync_status r' = "synced").
Proof.
  induction 1 as [|p ps Hp _ IH]; intros c w.
  - simpl. repeat split; try tauto; try lia; auto.
  - cbn [fold_left].
    assert (Hstep : handle_processed clock batch (c, w) p
                    = (mkTally (S (syncedItems c)) (failedItems c) (errs c),
                       updateSyncStatus clock (Processed.client_id p) "synced"
                                        (Processed.resolved_data p) w)).
    { unfold handle_processed. now rewrite Hp. }
    rewrite Hstep.
    set (w1 := updateSyncStatus clock _ _ _ w).
    destruct (IH (mkTally (S (syncedItems c)) (failedItems c) (errs c)) w1)
      as (Hs & Hf & He & Hq & Ht).
    cbv zeta. split; [|split; [|split; [|split]]].
    + rewrite Hs. simpl. lia.
    + rewrite Hf. reflexivity.
    + rewrite He. reflexivity.
    + intros q. rewrite Hq. unfold w1. rewrite updateSyncStatus_queue.
      cbn [String.eqb Ascii.eqb Bool.eqb]. unfold delete_sync_queue_by_task.
      rewrite filter_In, negb_true_iff, String.eqb_neq. simpl.
      intuition congruence.
    + intros done Hdone r' Hr' Hin.
      apply (Ht (Processed.client_id p :: done)); trivial.
      * intros r Hr [Hid|Hid].
        -- symmetry in Hid.
           now apply (updateSyncStatus_row clock _ _ _ _ _ Hr Hid).
        -- destruct (String.eqb_spec (TaskRow.id r) (Processed.client_id p))
             as [He'|He'].
           ++ now apply (updateSyncStatus_row clock _ _ _ _ _ Hr He').
           ++ apply Hdone; trivial.
              now apply (updateSyncStatus_frame clock _ "synced"
                           (Processed.resolved_data p) w r He').
      * simpl in Hin. apply in_app_iff.
        destruct Hin as [Hin|Hin]; [right; now left|].
        apply in_app_iff in Hin. destruct Hin; [now left|right; now right].
Qed.

Lemma run_batch_confirmed batch c w :
  let st := run_batch clock axios_post (c, w) batch in
  syncedItems (fst st) = (syncedItems c + length batch)%nat
  /\ failedItems (fst st) = failedItems c
  /\ errs (fst st) = errs c
  /\ (forall q, In q (sync_queue (snd st))
                <-> In q (sync_queue w)
                    /\ ~ In (SyncQueueItem.task_id q)
                            (map SyncQueueItem.task_id batch))
  /\ (forall done,
         (forall r, In r (tasks w) -> In (TaskRow.id r) done ->
                    TaskRow.sync_status r = "synced") ->
         forall r', In r' (tasks (snd st)) ->
                    In (TaskRow.id r')
                       (map SyncQueueItem.task_id batch ++ done) ->
                    TaskRow.sync_status r' = "synced").
Proof.
  cbv zeta. unfold run_batch.
  destruct (processBatch_confirmed batch w)
    as (ps & w1 & Hrun & Htasks & Hqueue & Hids & Hall).
  rewrite Hrun. cbn [processed_items].
  assert (Hlen : length ps = length batch).
  { rewrite <- (length_map Processed.client_id ps), Hids.
    apply length_map. }
  pose proof (handle_confirmed batch ps Hall c w1) as Hloop.
  cbv zeta in Hloop. rewrite Hids, Htasks, Hqueue, Hlen in Hloop.
  exact Hloop.
Qed.

Lemma run_batches_confirmed batches :
  forall c w,
    let st := fold_left (run_batch clock axios_post) batches (c, w) in
    syncedItems (fst st) = (syncedItems c + length (concat batches))%nat
    /\ failedItems (fst st) = failedItems c
    /\ errs (fst st) = errs c
    /\ (forall q, In q (sync_queue (snd st)) ->
                  In q (sync_queue w)
                  /\ ~ In (SyncQueueItem.task_id q)
                          (map SyncQueueItem.task_id (concat batches)))
    /\ (forall done,
           (forall r, In r (tasks w) -> In (TaskRow.id r) done ->
                      TaskRow.sync_status r = "synced") ->
           forall r', In r' (tasks (snd st)) ->
                      In (TaskRow.id r')
                         (map SyncQueueItem.task_id (concat batches) ++ done) ->
                      TaskRow.sync_status r' = "synced").
Proof.
  induction batches as [|b batches IH]; intros c w.
  - simpl. repeat split; try tauto; try lia; auto.
  - cbn [fold_left concat].
    destruct (run_batch_confirmed b c w) as (Hs & Hf & He & Hq & Ht).
    destruct (run_batch clock axios_post (c, w) b) as [c1 w1].
    cbn [fst snd] in *.
    destruct (IH c1 w1) as (Hs' & Hf' & He' & Hq' & Ht').
    cbv zeta. split; [|split; [|split; [|split]]].
    + rewrite Hs', Hs, length_app. lia.
    + congruence.
    + congruence.
    + intros q Hin. destruct (Hq' q Hin) as [Hin1 Hnot1].
      apply Hq in Hin1. destruct Hin1 as [Hin0 Hnot0].
      split; [exact Hin0|]. rewrite map_app, in_app_iff. tauto.
    + intros done Hdone r' Hr' Hin.
      apply (Ht' (map SyncQueueItem.task_id b ++ done)).
      * intros r Hr Hrin. now apply (Ht done Hdone).
      * exact Hr'.
      * rewrite map_app, <- app_assoc in Hin.
        rewrite !in_app_iff in *. tauto.
Qed.

Lemma sync_confirmed fuel batchSize w :
  0 < batchSize ->
  (length (sync_queue w) <= fuel)%nat ->
  exists w',
    sync clock axios_post fuel batchSize w
    = Some (mkResult true (length (sync_queue w)) 0 [], w')
    /\ sync_queue w' = []
    /\ (forall q r', In q (sync_queue w) -> In r' (tasks w') ->
                     TaskRow.id r' = SyncQueueItem.task_id q ->
                     TaskRow.sync_status r' = "synced").
Proof.
  intros Hbs Hfuel.
  pose proof (order_by_created_at_perm (sync_queue w)) as Hperm.
  destruct (batches_from_spec (order_by_created_at (sync_queue w))
                              batchSize Hbs fuel 0)
    as (batches & Hrun & Hcat & _ & _); [lia| |].
  { rewrite (Permutation_length Hperm). lia. }
  simpl in Hcat. unfold sync. rewrite Hrun.
  destruct (run_batches_confirmed batches (mkTally 0 0 []) w)
    as (Hs & Hf & He & Hq & Ht).
  destruct (fold_left _ batches _) as [c w'].
  cbn [fst snd syncedItems failedItems errs] in *.
  assert (Hdrained : forall q, In q (sync_queue w) ->
                               In (SyncQueueItem.task_id q)
                                  (map SyncQueueItem.task_id (concat batches))).
  { intros q Hin. apply in_map. rewrite Hcat.
    eapply Permutation_in; [symmetry; exact Hperm|exact Hin]. }
  exists w'. split; [|split].
  - rewrite Hs, Hf, He, Hcat, (Permutation_length Hperm). reflexivity.
  - destruct (sync_queue w') as [|q qs] eqn:Hq'; [reflexivity|].
    destruct (Hq q (or_introl eq_refl)) as [Hin Hnot].
    exfalso. apply Hnot. now apply Hdrained.
  - intros q r' Hin Hr' Hid.
    apply (Ht [] (fun _ _ (F : In _ []) => match F with end) r' Hr').
    rewrite app_nil_r, Hid. now apply Hdrained.
Qed.

End Confirmed.

Lemma thrown_by_no_conflict (ps : list Wire.outcome) :
  Forall (fun p => Wire.status p <> "conflict") ps -> thrown_by ps = None.
Proof.
  induction 1 as [|p ps Hp _ IH]; simpl; [reflexivity|].
  destruct (String.eqb_spec (Wire.status p) "conflict"); [contradiction|].
  exact IH.
Qed.

(** The answers of the [/batch] route to the rows [sync] posts. *)
Lemma batch_items_posted serverId now batch :
  forall k,
    map Wire.client_id (batch_items serverId now k (map posted batch))
    = map SyncQueueItem.task_id batch
    /\ Forall (fun p => Wire.status p = "success"
                        /\ Wire.error p = None
                        /\ Wire.server_id p <> None
                        /\ exists d, Wire.resolved_data p = Some d
                                     /\ js_get "server_id" d = JUndefined)
              (batch_items serverId now k (map posted batch)).
Proof.
  induction batch as [|item batch IH]; intros k; simpl; [now split|].
  destruct (IH (S k)) as [Hids Hall]. split; [now rewrite Hids|].
  constructor; [|exact Hall].
  split; [reflexivity|]. split; [reflexivity|]. split; [discriminate|].
  eexists. split; reflexivity.
Qed.

Lemma via_batch_route_answer serverId now n req :
  exists ps,
    via_batch_route serverId now n req = inr (mkResponse ps)
    /\ map Processed.client_id ps = map SyncQueueItem.task_id (items req)
    /\ Forall (fun p => Processed.status p = "success"
                        /\ Processed.error p = None
                        /\ Processed.server_id p <> None
                        /\ recorded_server_id (Processed.resolved_data p) = None)
              ps.
Proof.
  destruct (batch_items_posted serverId now (items req) 0) as [Hids Hall].
  exists (map typed (batch_items serverId now 0 (map posted (items req)))).
  split; [|split].
  - unfold via_batch_route, over_json, post_to_batch_route, post_batch.
    cbn [http_body]. rewrite thrown_by_no_conflict; [reflexivity|].
    eapply Forall_impl; [|exact Hall].
    intros p (Hs & _). rewrite Hs. discriminate.
  - rewrite map_map. exact Hids.
  - apply Forall_map. eapply Forall_impl; [|exact Hall].
    intros p (Hs & He & Hsv & d & Hd & Hnone). unfold typed.
    cbn [Processed.status Processed.error Processed.server_id
         Processed.resolved_data].
    repeat split; trivial. rewrite Hd. cbn [option_map recorded_server_id].
    unfold as_task. cbn [Task.server_id]. now rewrite Hnone.
Qed.

Lemma via_batch_route_confirms serverId now :
  confirms_every_item (via_batch_route serverId now).
Proof.
  intros n req.
  destruct (via_batch_route_answer serverId now n req) as (ps & Hpost & Hids & Hall).
  exists ps. split; [exact Hpost|]. split; [exact Hids|].
  eapply Forall_impl; [|exact Hall]. now intros p [Hs _].
Qed.

(** X9. When the transport answers every request with one [success] outcome
    per item sent, a pass with a positive batch size empties the queue: it
    reports success with every queue row counted as synced, none failed and
    no error, no row is left in the queue, and every row of a task that had
    a queue row ends [synced]. *)
Theorem sync_confirmed_empties_queue
        (clock : nat -> Date)
        (axios_post : nat -> BatchSyncRequest -> string + BatchSyncResponse)
        (fuel : nat) (batchSize : Z) (w : World) :
  confirms_every_item axios_post ->
  0 < batchSize ->
  (length (sync_queue w) <= fuel)%nat ->
  exists w',
    sync clock axios_post fuel batchSize w
    = Some (mkResult true (length (sync_queue w)) 0 [], w')
    /\ sync_queue w' = []
    /\ (forall q r', In q (sync_queue w) -> In r' (tasks w') ->
                     TaskRow.id r' = SyncQueueItem.task_id q ->
                     TaskRow.sync_status r' = "synced").
Proof.
  intros Hconfirms Hbs Hfuel. now apply sync_confirmed.
Qed.

Lemma sync_confirmed_empties_queue_witness :
  let w := world_of [task_R "pending"; task_S] [item_q1 0; item_q2; item_q3] in
  exists w',
    sync tick (via_batch_route server_id_of tick) 3 2 w
    = Some (mkResult true 3 0 [], w')
    /\ sync_queue w' = []
    /\ (forall q r', In q (sync_queue w) -> In r' (tasks w') ->
                     TaskRow.id r' = SyncQueueItem.task_id q ->
                     TaskRow.sync_status r' = "synced").
Proof.
  apply (sync_confirmed_empties_queue tick (via_batch_route server_id_of tick)
           3 2 (world_of [task_R "pending"; task_S]
                         [item_q1 0; item_q2; item_q3])).
  - apply via_batch_route_confirms.
  - lia.
  - simpl. lia.
Defined.

(** ** The [/batch] route and a pass against it *)


Lemma server_ids_kept_refl ts : server_ids_kept ts ts.
Proof.
  intros r Hr. exists r. now repeat split.
Qed.

Lemma server_ids_kept_trans ts1 ts2 ts3 :
  server_ids_kept ts1 ts2 -> server_ids_kept ts2 ts3 ->
  server_ids_kept ts1 ts3.
Proof.
  intros H12 H23 r3 Hr3. destruct (H23 r3 Hr3) as (r2 & Hr2 & A & B).
  destruct (H12 r2 Hr2) as (r1 & Hr1 & A' & B').
  exists r1. split; [exact Hr1|]. split; congruence.
Qed.

Lemma server_ids_kept_update set id ts :
  (forall r, TaskRow.id (set r) = TaskRow.id r
             /\ TaskRow.server_id (set r) = TaskRow.server_id r) ->
  server_ids_kept ts (update_tasks set id ts).
Proof.
  intros Hset r' Hr'. apply in_map_iff in Hr'. destruct Hr' as (r & <- & Hr).
  exists r. split; [exact Hr|].
  destruct (String.eqb _ _); [apply Hset|now split].
Qed.

Section NoRemoteId.

Variable clock : nat -> Date.
Variable axios_post : nat -> BatchSyncRequest -> string + BatchSyncResponse.
Hypothesis Hnever : never_names_remote_id axios_post.

Lemma handleSyncError_server_ids item message w :
  server_ids_kept (tasks w) (tasks (handleSyncError item message w)).
Proof.
  rewrite handleSyncError_tasks. destruct (3 <=? _).
  - apply server_ids_kept_update. intros r. now split.
  - apply server_ids_kept_refl.
Qed.

Lemma updateSyncStatus_server_ids taskId status serverData w :
  recorded_server_id serverData = None ->
  server_ids_kept (tasks w)
                  (tasks (updateSyncStatus clock taskId status serverData w)).
Proof.
  intros Hnone. rewrite updateSyncStatus_tasks, Hnone. cbv zeta.
  apply server_ids_kept_update. intros r. now split.
Qed.

Lemma fold_server_ids {A B : Type} (f : A * World -> B -> A * World)
      (P : B -> Prop) (l : list B) :
  (forall a w b, P b ->
                 server_ids_kept (tasks w) (tasks (snd (f (a, w) b)))) ->
  Forall P l ->
  forall st,
    server_ids_kept (tasks (snd st)) (tasks (snd (fold_left f l st))).
Proof.
  intros Hf. induction 1 as [|b l Hb _ IH]; intros [a w]; simpl;
    [apply server_ids_kept_refl|].
  eapply server_ids_kept_trans; [apply (Hf a w b Hb)|apply IH].
Qed.

Lemma run_batch_server_ids c w batch :
  server_ids_kept (tasks w)
                  (tasks (snd (run_batch clock axios_post (c, w) batch))).
Proof.
  unfold run_batch.
  pose proof (processBatch_answer clock axios_post batch w) as Hans.
  assert (Hp : forall resp,
             fst (processBatch clock axios_post batch w) = inr resp ->
             tasks (snd (processBatch clock axios_post batch w)) = tasks w).
  { unfold processBatch, new_Date. simpl.
    destruct (axios_post _ _) as [m|r] eqn:Hpost; cbn [fst snd];
      intros resp Hr; [discriminate|].
    apply (fold_left_inv (fun w' => tasks w' = tasks w)); [|reflexivity].
    intros a p Hin Ha. unfold apply_conflict.
    destruct (Hnever _ _ _ p Hpost Hin) as [Hnc _].
    apply String.eqb_neq in Hnc. now rewrite Hnc. }
  assert (Hthrown : forall m,
             fst (processBatch clock axios_post batch w) = inl m ->
             tasks (snd (processBatch clock axios_post batch w)) = tasks w).
  { unfold processBatch, new_Date. simpl.
    destruct (axios_post _ _) as [m0|r]; cbn [fst snd]; intros m Hm;
      [reflexivity|discriminate]. }
  destruct (processBatch clock axios_post batch w) as [[m|resp] w1];
    cbn [fst snd] in *.
  - rewrite <- (Hthrown m eq_refl).
    pose proof (fold_server_ids (handle_thrown clock m) (fun _ => True) batch)
      as Hf.
    specialize (Hf (fun es w0 item _ =>
                      handleSyncError_server_ids item m w0)).
    specialize (Hf (proj2 (Forall_forall _ batch) (fun _ _ => I)) (errs c, w1)).
    destruct (fold_left _ batch _) as [es w2]. exact Hf.
  - rewrite <- (Hp resp eq_refl).
    destruct (Hans resp eq_refl) as (n & req & Hpost).
    apply (fold_server_ids (handle_processed clock batch)
             (fun p => recorded_server_id (Processed.resolved_data p) = None)
             (processed_items resp)).
    + intros a w0 p Hnone. unfold handle_processed.
      destruct (String.eqb _ _); unfold new_Date; cbn [snd].
      * now apply updateSyncStatus_server_ids.
      * apply (updateSyncStatus_server_ids
                 (Processed.client_id p) "error" None
                 (mkWorld (tasks w0) (sync_queue w0) (S (clock_reads w0))
                          (uuid_reads w0) (http_log w0)) eq_refl).
    + apply Forall_forall. intros p Hin.
      now destruct (Hnever _ _ _ p Hpost Hin).
Qed.

Lemma sync_server_ids fuel batchSize w result w' :
  sync clock axios_post fuel batchSize w = Some (result, w') ->
  server_ids_kept (tasks w) (tasks w').
Proof.
  unfold sync. destruct (batches_from _ _ _ _) as [batches|]; [|discriminate].
  destruct (fold_left _ batches _) as [c w1] eqn:Hfold.
  intros H. inversion H; subst.
  change w' with (snd (c, w')). rewrite <- Hfold.
  change (tasks w) with (tasks (snd (mkTally 0 0 [], w))).
  generalize (mkTally 0 0 [], w). clear Hfold H.
  induction batches as [|b batches IH]; intros [c0 w0]; cbn [fold_left];
    [apply server_ids_kept_refl|].
  pose proof (run_batch_server_ids c0 w0 b) as Hstep.
  destruct (run_batch clock axios_post (c0, w0) b) as [c1 w1].
  cbn [snd] in *.
  eapply server_ids_kept_trans; [exact Hstep|apply (IH (c1, w1))].
Qed.

End NoRemoteId.

Lemma via_batch_route_never_names serverId now :
  never_names_remote_id (via_batch_route serverId now).
Proof.
  intros n req resp p Hpost Hin.
  destruct (via_batch_route_answer serverId now n req) as (ps & Hps & _ & Hall).
  rewrite Hps in Hpost. inversion Hpost; subst resp.
  cbn [processed_items] in Hin.
  rewrite Forall_forall in Hall. destruct (Hall p Hin) as (Hs & _ & _ & Hnone).
  split; [|exact Hnone]. rewrite Hs. discriminate.
Qed.

(** X11. A pass that talks to the [/batch] route never stores a remote
    identifier: the route sends the identifier beside the resolved data, and
    [updateSyncStatus] looks for it inside, so after the pass every task row
    has the [server_id] it had before. *)
Theorem sync_via_batch_route_stores_no_server_id
        (clock : nat -> Date) (serverId : nat -> string) (now : nat -> Date)
        (fuel : nat) (batchSize : Z) (w : World)
        (result : SyncResult) (w' : World) :
  sync clock (via_batch_route serverId now) fuel batchSize w
  = Some (result, w') ->
  forall r', In r' (tasks w') ->
             exists r, In r (tasks w)
                       /\ TaskRow.id r' = TaskRow.id r
                       /\ TaskRow.server_id r' = TaskRow.server_id r.
Proof.
  intros Hsync.
  apply (sync_server_ids clock (via_batch_route serverId now)
           (via_batch_route_never_names serverId now) _ _ _ _ _ Hsync).
Qed.

Lemma sync_via_batch_route_stores_no_server_id_witness :
  let w := world_of [task_R "pending"; task_S] [item_q1 0; item_q3] in
  exists result w',
    sync tick (via_batch_route server_id_of tick) 2 50 w = Some (result, w')
    /\ synced_items result = 2%nat
    /\ map TaskRow.server_id (tasks w') = [None; None]
    /\ forall r', In r' (tasks w') ->
                  exists r, In r (tasks w)
                            /\ TaskRow.id r' = TaskRow.id r
                            /\ TaskRow.server_id r' = TaskRow.server_id r.
Proof.
  cbv zeta. do 2 eexists. split; [vm_compute; reflexivity|].
  split; [reflexivity|]. split; [reflexivity|].
  eapply (sync_via_batch_route_stores_no_server_id tick server_id_of tick
            2 50 (world_of [task_R "pending"; task_S] [item_q1 0; item_q3])).
  vm_compute. reflexivity.
Defined.

(** ** The batching loop, once more *)

Lemma batches_from_layout {A : Type} (queueItems : list A) (batchSize : Z) :
  0 < batchSize ->
  forall fuel i batches,
    0 <= i ->
    batches_from fuel queueItems batchSize i = Some batches ->
    Z.of_nat (length batches)
    = (Z.max 0 (Z.of_nat (length queueItems) - i) + batchSize - 1) / batchSize
    /\ forall k, nth k batches []
                 = firstn (Z.to_nat batchSize)
                          (skipn (Z.to_nat i + k * Z.to_nat batchSize)
                                 queueItems).
Proof.
  intros Hbs.
  assert (Hdone : forall i k,
             Z.of_nat (length queueItems) <= i -> 0 <= i ->
             Z.of_nat (@length (list A) [])
             = (Z.max 0 (Z.of_nat (length queueItems) - i) + batchSize - 1)
               / batchSize
             /\ @nth (list A) k [] []
                = firstn (Z.to_nat batchSize)
                         (skipn (Z.to_nat i + k * Z.to_nat batchSize)
                                queueItems)).
  { intros i k Hge Hi. split.
    - rewrite Z.max_l by lia. simpl. symmetry. apply Z.div_small. lia.
    - rewrite skipn_all2 by lia. rewrite firstn_nil. now destruct k. }
  induction fuel as [|fuel IH]; intros i batches Hi; simpl;
    destruct (Z.ltb_spec i (Z.of_nat (length queueItems))) as [Hlt|Hge];
    try discriminate.
  - intros H. inversion H; subst.
    split; [apply (Hdone i 0%nat)|intros k; apply (Hdone i k)]; lia.
  - destruct (batches_from fuel queueItems batchSize (i + batchSize))
      as [rest|] eqn:Hrest; [|discriminate].
    intros H. inversion H; subst.
    destruct (IH (i + batchSize) rest) as [Hcount Hnth]; [lia|exact Hrest|].
    split.
    + cbn [length]. rewrite Nat2Z.inj_succ, Hcount.
      rewrite (Z.max_r 0 (Z.of_nat (length queueItems) - i)) by lia.
      destruct (Z.le_gt_cases (Z.of_nat (length queueItems)) (i + batchSize))
        as [Hlast|Hmore].
      * rewrite Z.max_l by lia.
        rewrite (Z.div_small (0 + batchSize - 1)) by lia.
        replace (Z.of_nat (length queueItems) - i + batchSize - 1)
          with ((Z.of_nat (length queueItems) - i - 1) + 1 * batchSize)
          by lia.
        rewrite Z.div_add by lia. rewrite Z.div_small by lia. reflexivity.
      * rewrite Z.max_r by lia.
        replace (Z.of_nat (length queueItems) - i + batchSize - 1)
          with ((Z.of_nat (length queueItems) - (i + batchSize)
                 + batchSize - 1) + 1 * batchSize) by lia.
        rewrite Z.div_add by lia. lia.
    + intros [|k].
      * cbn [nth]. rewrite slice_in_range by lia.
        now rewrite Nat.add_0_r.
      * cbn [nth]. rewrite Hnth. do 2 f_equal. lia.
  - intros H. inversion H; subst.
    split; [apply (Hdone i 0%nat)|intros k; apply (Hdone i k)]; lia.
Qed.

(** X12. With a positive batch size the loop of [sync] builds
    ceil(length / batchSize) batches, and batch number [k] holds the items at
    positions [k * batchSize] up to [(k + 1) * batchSize - 1] of the drained
    queue. *)
Theorem batches_count_and_layout {A : Type} (queueItems : list A)
        (batchSize : Z) (fuel : nat) :
  0 < batchSize ->
  (length queueItems <= fuel)%nat ->
  exists batches,
    batches_from fuel queueItems batchSize 0 = Some batches
    /\ Z.of_nat (length batches)
       = (Z.of_nat (length queueItems) + batchSize - 1) / batchSize
    /\ forall k, nth k batches []
                 = firstn (Z.to_nat batchSize)
                          (skipn (k * Z.to_nat batchSize) queueItems).
Proof.
  intros Hbs Hfuel.
  destruct (batches_from_spec queueItems batchSize Hbs fuel 0)
    as (batches & Hrun & _); [lia|lia|].
  exists batches. split; [exact Hrun|].
  destruct (batches_from_layout queueItems batchSize Hbs fuel 0 batches)
    as [Hcount Hnth]; [lia|exact Hrun|].
  split.
  - rewrite Hcount. rewrite Z.sub_0_r, Z.max_r by lia. reflexivity.
  - intros k. rewrite Hnth. reflexivity.
Qed.

Lemma batches_count_and_layout_witness :
  exists batches,
    batches_from 5 [1; 2; 3; 4; 5] 2 0 = Some batches
    /\ Z.of_nat (length batches) = (Z.of_nat 5 + 2 - 1) / 2
    /\ forall k, nth k batches []
                 = firstn (Z.to_nat 2) (skipn (k * Z.to_nat 2) [1; 2; 3; 4; 5]).
Proof.
  apply (batches_count_and_layout [1; 2; 3; 4; 5] 2 5); simpl; lia.
Defined.

(** ** The identifier as a key *)

Lemma updateTask_ids clock uuidv4 id updates w :
  map TaskRow.id (tasks (snd (updateTask clock uuidv4 id updates w)))
  = map TaskRow.id (tasks w).
Proof.
  destruct (select_live_task id (tasks w)) as [existing|] eqn:Hlive.
  - destruct (updateTask_found clock uuidv4 id updates w existing Hlive)
      as (_ & -> & _).
    now apply update_tasks_ids.
  - unfold updateTask. now rewrite Hlive.
Qed.

Lemma deleteTask_ids clock uuidv4 id w :
  map TaskRow.id (tasks (snd (deleteTask clock uuidv4 id w)))
  = map TaskRow.id (tasks w).
Proof.
  destruct (select_live_task id (tasks w)) as [existing|] eqn:Hlive.
  - destruct (deleteTask_found clock uuidv4 id w existing Hlive)
      as (_ & -> & _).
    now apply update_tasks_ids.
  - unfold deleteTask. now rewrite Hlive.
Qed.

Lemma createTask_ids clock uuidv4 taskData w :
  map TaskRow.id (tasks (snd (createTask clock uuidv4 taskData w)))
  = map TaskRow.id (tasks w) ++ [uuidv4 (uuid_reads w)].
Proof.
  unfold createTask, new_uuid, new_Date, insert_sync_queue, with_tasks,
    with_sync_queue.
  cbn [fst snd tasks sync_queue uuid_reads clock_reads http_log Task.id].
  now rewrite map_app.
Qed.

(** X13. Identifiers stay unique in the tasks table: if they are unique,
    they still are after [createTask] under an identifier not yet in the
    table, after [updateTask], after [deleteTask] and after a pass. *)
Theorem task_ids_stay_unique
        (clock : nat -> Date) (uuidv4 : nat -> string)
        (axios_post : nat -> BatchSyncRequest -> string + BatchSyncResponse)
        (w : World) :
  NoDup (map TaskRow.id (tasks w)) ->
  (forall taskData,
      ~ In (uuidv4 (uuid_reads w)) (map TaskRow.id (tasks w)) ->
      NoDup (map TaskRow.id (tasks (snd (createTask clock uuidv4 taskData w)))))
  /\ (forall id updates,
         NoDup (map TaskRow.id
                    (tasks (snd (updateTask clock uuidv4 id updates w)))))
  /\ (forall id,
         NoDup (map TaskRow.id (tasks (snd (deleteTask clock uuidv4 id w)))))
  /\ (forall fuel batchSize result w',
         sync clock axios_post fuel batchSize w = Some (result, w') ->
         NoDup (map TaskRow.id (tasks w'))).
Proof.
  intros Hnd. split; [|split; [|split]].
  - intros taskData Hfresh. rewrite createTask_ids.
    apply NoDup_app; [exact Hnd|repeat constructor; intros []|].
    intros x Hx [<-|[]]. contradiction.
  - intros id updates. now rewrite updateTask_ids.
  - intros id. now rewrite deleteTask_ids.
  - intros fuel batchSize result w' Hsync.
    destruct (sync_kept clock axios_post _ _ _ _ _ Hsync) as ((Hids & _) & _).
    now rewrite Hids.
Qed.

Lemma task_ids_stay_unique_witness :
  let w := world_of [task_R "pending"; task_S] [item_q1 0] in
  (forall taskData,
      ~ In (next_id (uuid_reads w)) (map TaskRow.id (tasks w)) ->
      NoDup (map TaskRow.id (tasks (snd (createTask tick next_id taskData w)))))
  /\ (forall id updates,
         NoDup (map TaskRow.id
                    (tasks (snd (updateTask tick next_id id updates w)))))
  /\ (forall id,
         NoDup (map TaskRow.id (tasks (snd (deleteTask tick next_id id w)))))
  /\ (forall fuel batchSize result w',
         sync tick offline fuel batchSize w = Some (result, w') ->
         NoDup (map TaskRow.id (tasks w'))).
Proof.
  apply (task_ids_stay_unique tick next_id offline
           (world_of [task_R "pending"; task_S] [item_q1 0])).
  simpl. repeat constructor; simpl; intuition discriminate.
Defined.

(** ** The task routes *)

(** X14. [POST /] answers 400 and leaves the store and the queue untouched
    unless the body's title is a non-empty string: a missing title, an empty
    one and one of another type are all rejected before [createTask] runs. *)
Theorem post_task_rejects_bad_title
        (clock : nat -> Date) (uuidv4 : nat -> string)
        (body : jsobj) (w : World) :
  (forall s, js_get "title" body = JStr s -> s = EmptyString) ->
  post_task clock uuidv4 body w
  = (mkHttp 400 (JsonError "Title is required and must be a string"), w).
Proof.
  intros Hbad. unfold post_task.
  destruct (js_get "title" body) as [| |b|n|s] eqn:Htitle;
    cbn [truthy js_typeof]; try reflexivity.
  - destruct b; reflexivity.
  - destruct (n =? 0); reflexivity.
  - rewrite (Hbad s eq_refl). reflexivity.
Qed.

Lemma post_task_rejects_bad_title_witness :
  post_task tick next_id [("description", JStr "no title")]
            (world_of [task_R "synced"] [])
  = (mkHttp 400 (JsonError "Title is required and must be a string"),
     world_of [task_R "synced"] [])
  /\ post_task tick next_id [("title", JNum 7)] (world_of [task_R "synced"] [])
     = (mkHttp 400 (JsonError "Title is required and must be a string"),
        world_of [task_R "synced"] []).
Proof.
  split.
  - apply (post_task_rejects_bad_title tick next_id
             [("description", JStr "no title")] (world_of [task_R "synced"] [])).
    intros s H. discriminate H.
  - apply (post_task_rejects_bad_title tick next_id [("title", JNum 7)]
             (world_of [task_R "synced"] [])).
    intros s H. discriminate H.
Defined.

(** X15. [POST /] with a non-empty string title and a fresh identifier
    answers 201 with the new task: the new identifier, the title, not
    completed, [pending].  [GET /:id] on that identifier then answers 200 with
    a task of the same identifier, title, completion flag, sync state and
    instants, and of the same description when the body gave a string; and
    [GET /] lists that task. *)
Theorem post_task_then_get_task
        (clock : nat -> Date) (uuidv4 : nat -> string)
        (body : jsobj) (w : World) (s : string) :
  js_get "title" body = JStr s ->
  s <> EmptyString ->
  ~ In (uuidv4 (uuid_reads w)) (map TaskRow.id (tasks w)) ->
  exists task w',
    post_task clock uuidv4 body w = (mkHttp 201 (JsonTask task), w')
    /\ Task.id task = uuidv4 (uuid_reads w)
    /\ Task.title task = Some s
    /\ Task.completed task = false
    /\ Task.sync_status task = Some "pending"
    /\ exists got,
         get_task (Task.id task) w' = mkHttp 200 (JsonTask got)
         /\ Task.id got = Task.id task
         /\ Task.title got = Some s
         /\ Task.completed got = false
         /\ Task.sync_status got = Some "pending"
         /\ Task.created_at got = Task.created_at task
         /\ Task.updated_at got = Task.updated_at task
         /\ (forall d, js_get "description" body = JStr d ->
                       Task.description task = Some d
                       /\ Task.description got = Some d)
         /\ exists all, get_tasks w' = mkHttp 200 (JsonTasks all) /\ In got all.
Proof.
  intros Htitle Hs Hfresh.
  pose proof (createTask_stored clock uuidv4
                [("title", js_get "title" body);
                 ("description", js_get "description" body)] w Hfresh)
    as Hcreate.
  cbv zeta in Hcreate.
  destruct Hcreate as (Htask & _ & Hget & Hall & _).
  unfold post_task. rewrite Htitle.
  apply String.eqb_neq in Hs. cbn [truthy js_typeof]. rewrite Hs.
  cbn [negb orb String.eqb Ascii.eqb Bool.eqb].
  rewrite Htitle in *.
  destruct (createTask clock uuidv4 _ w) as [task w'] eqn:Hc.
  cbn [fst snd] in *. cbn [js_get String.eqb Ascii.eqb Bool.eqb bind_text] in *.
  exists task, w'. split; [reflexivity|]. rewrite Htask.
  cbn [Task.id Task.title Task.completed Task.sync_status Task.created_at
       Task.updated_at Task.description].
  do 4 (split; [reflexivity|]).
  eexists. split; [unfold get_task; rewrite Hget; reflexivity|].
  do 6 (split; [reflexivity|]).
  split.
  - intros d Hd. rewrite Hd. split; reflexivity.
  - exists (getAllTasks w'). split; [reflexivity|exact Hall].
Qed.

Lemma post_task_then_get_task_witness :
  let body := [("title", JStr "B"); ("description", JStr "notes")] in
  exists task w',
    post_task tick next_id body (world_of [task_R "synced"] [])
    = (mkHttp 201 (JsonTask task), w')
    /\ Task.id task = "id-0"
    /\ Task.title task = Some "B"
    /\ Task.completed task = false
    /\ Task.sync_status task = Some "pending"
    /\ exists got,
         get_task (Task.id task) w' = mkHttp 200 (JsonTask got)
         /\ Task.id got = Task.id task
         /\ Task.title got = Some "B"
         /\ Task.completed got = false
         /\ Task.sync_status got = Some "pending"
         /\ Task.created_at got = Task.created_at task
         /\ Task.updated_at got = Task.updated_at task
         /\ (forall d, js_get "description" body = JStr d ->
                       Task.description task = Some d
                       /\ Task.description got = Some d)
         /\ exists all, get_tasks w' = mkHttp 200 (JsonTasks all) /\ In got all.
Proof.
  apply (post_task_then_get_task tick next_id
           [("title", JStr "B"); ("description", JStr "notes")]
           (world_of [task_R "synced"] []) "B").
  - reflexivity.
  - discriminate.
  - simpl. intros [H|[]]. discriminate H.
Defined.

(** X16. [PUT /:id] changes nothing when it refuses: it answers 400 for a
    title that is given and is no string, 400 for a completion flag that is
    given and is no boolean, and 404 when the types pass and no live task has
    the identifier; in each case the store and the queue are as before. *)
Theorem put_task_refusals
        (clock : nat -> Date) (uuidv4 : nat -> string)
        (id : string) (body : jsobj) (w : World) :
  let title_ok := js_get "title" body = JUndefined
                  \/ exists s, js_get "title" body = JStr s in
  let completed_ok := js_get "completed" body = JUndefined
                      \/ exists b, js_get "completed" body = JBool b in
  (~ title_ok ->
   put_task clock uuidv4 id body w
   = (mkHttp 400 (JsonError "Title must be a string"), w))
  /\ (title_ok -> ~ completed_ok ->
      put_task clock uuidv4 id body w
      = (mkHttp 400 (JsonError "Completed must be a boolean"), w))
  /\ (title_ok -> completed_ok ->
      (forall r, In r (tasks w) -> TaskRow.id r = id ->
                 TaskRow.is_deleted r <> 0) ->
      put_task clock uuidv4 id body w
      = (mkHttp 404 (JsonError "Task not found"), w)).
Proof.
  cbv zeta. unfold put_task. split; [|split].
  - intros Hbad.
    destruct (js_get "title" body) as [| |b|n|s]; try reflexivity.
    + exfalso. apply Hbad. now left.
    + exfalso. apply Hbad. right. now exists s.
  - intros Ht Hbad.
    assert (Hpass : js_defined (js_get "title" body)
                    && negb (String.eqb (js_typeof (js_get "title" body))
                                        "string") = false).
    { destruct Ht as [->|[s ->]]; reflexivity. }
    rewrite Hpass.
    destruct (js_get "completed" body) as [| |b|n|s]; try reflexivity.
    + exfalso. apply Hbad. now left.
    + exfalso. apply Hbad. right. now exists b.
  - intros Ht Hc Hnone.
    assert (Hpass : js_defined (js_get "title" body)
                    && negb (String.eqb (js_typeof (js_get "title" body))
                                        "string") = false).
    { destruct Ht as [->|[s ->]]; reflexivity. }
    assert (Hpass' : js_defined (js_get "completed" body)
                     && negb (String.eqb (js_typeof (js_get "completed" body))
                                         "boolean") = false).
    { destruct Hc as [->|[b ->]]; reflexivity. }
    rewrite Hpass, Hpass'. unfold updateTask.
    now rewrite (select_live_task_none id (tasks w) Hnone).
Qed.

Lemma put_task_refusals_witness :
  let w := world_of [task_R_done; task_D] [item_q3] in
  put_task tick next_id "R" [("title", JNum 1)] w
  = (mkHttp 400 (JsonError "Title must be a string"), w)
  /\ put_task tick next_id "R" [("title", JStr "A"); ("completed", JStr "yes")] w
     = (mkHttp 400 (JsonError "Completed must be a boolean"), w)
  /\ put_task tick next_id "D" [("title", JStr "A")] w
     = (mkHttp 404 (JsonError "Task not found"), w).
Proof.
  cbv zeta.
  destruct (put_task_refusals tick next_id "R" [("title", JNum 1)]
              (world_of [task_R_done; task_D] [item_q3])) as (H1 & _ & _).
  destruct (put_task_refusals tick next_id "R"
              [("title", JStr "A"); ("completed", JStr "yes")]
              (world_of [task_R_done; task_D] [item_q3])) as (_ & H2 & _).
  destruct (put_task_refusals tick next_id "D" [("title", JStr "A")]
              (world_of [task_R_done; task_D] [item_q3])) as (_ & _ & H3).
  split; [|split].
  - apply H1. intros [H|[s H]]; discriminate H.
  - apply H2; [right; now exists "A"|].
    intros [H|[b H]]; discriminate H.
  - apply H3; [right; now exists "A"|left; reflexivity|].
    intros r [<-|[<-|[]]]; simpl; intros H; [discriminate H|lia].
Defined.

Lemma put_task_body_fields (title description completed : jsval)
      (existing : TaskRow.t) (now : Date) :
  let updates := [("title", title); ("description", description);
                  ("completed", completed)] in
  js_get "title" (merged existing updates now) = title
  /\ js_get "description" (merged existing updates now) = description
  /\ js_get "completed" (merged existing updates now) = completed.
Proof.
  cbv zeta. rewrite !merged_get by discriminate.
  assert (Hnd : NoDup (map fst [("title", title); ("description", description);
                                ("completed", completed)])).
  { simpl. repeat constructor; simpl; intuition discriminate. }
  repeat split; apply js_get_spread_present; trivial; simpl; auto.
Qed.

(** X17. [PUT /:id] replaces, it does not merge.  For a live task and a body
    whose title is a string and whose completion flag is a boolean or absent,
    the route answers 200 and every row of the identifier takes its [title],
    [description] and [completed] from the body alone: a body without
    description clears the stored description, and a body without completion
    flag resets [completed] to 0. *)
Theorem put_task_overwrites_omitted_fields
        (clock : nat -> Date) (uuidv4 : nat -> string)
        (id : string) (body : jsobj) (w : World) (existing : TaskRow.t)
        (s : string) :
  select_live_task id (tasks w) = Some existing ->
  js_get "title" body = JStr s ->
  (js_get "description" body = JUndefined
   \/ js_get "description" body = JNull
   \/ exists d, js_get "description" body = JStr d) ->
  (js_get "completed" body = JUndefined
   \/ exists b, js_get "completed" body = JBool b) ->
  let res := put_task clock uuidv4 id body w in
  http_status (fst res) = 200
  /\ forall r', In r' (tasks (snd res)) -> TaskRow.id r' = id ->
                TaskRow.title r' = Some s
                /\ TaskRow.description r'
                   = bind_text (js_get "description" body)
                /\ TaskRow.completed r'
                   = (if truthy (js_get "completed" body) then 1 else 0)
                /\ (js_get "description" body = JUndefined ->
                    TaskRow.description r' = None)
                /\ (js_get "completed" body = JUndefined ->
                    TaskRow.completed r' = 0).
Proof.
  intros Hlive Htitle _ Hc. cbv zeta. unfold put_task.
  rewrite Htitle. cbn [js_defined js_typeof String.eqb Ascii.eqb Bool.eqb
                                  negb andb].
  assert (Hpass : js_defined (js_get "completed" body)
                  && negb (String.eqb (js_typeof (js_get "completed" body))
                                      "boolean") = false).
  { destruct Hc as [->|[b ->]]; reflexivity. }
  rewrite Hpass.
  destruct (updateTask_found clock uuidv4 id
              [("title", JStr s); ("description", js_get "description" body);
               ("completed", js_get "completed" body)] w existing Hlive)
    as (Hres & Htasks & _).
  destruct (put_task_body_fields (JStr s) (js_get "description" body)
              (js_get "completed" body) existing (clock (clock_reads w)))
    as (Ft & Fd & Fc).
  rewrite Ft, Fd, Fc in Htasks.
  destruct (updateTask clock uuidv4 id _ w) as [[u|] w'];
    cbn [fst snd] in *; [|discriminate].
  split; [reflexivity|].
  intros r' Hr' Hid. rewrite Htasks in Hr'.
  apply update_tasks_hit in Hr'; trivial.
  destruct Hr' as (r & _ & _ & ->).
  cbn [TaskRow.title TaskRow.description TaskRow.completed TaskRow.set_edit
       bind_text].
  repeat split.
  - now intros ->.
  - now intros ->.
Qed.

Lemma put_task_overwrites_omitted_fields_witness :
  let w := world_of [task_R_done] [] in
  let res := put_task tick next_id "R" [("title", JStr "A2")] w in
  http_status (fst res) = 200
  /\ forall r', In r' (tasks (snd res)) -> TaskRow.id r' = "R" ->
                TaskRow.title r' = Some "A2"
                /\ TaskRow.description r'
                   = bind_text (js_get "description" [("title", JStr "A2")])
                /\ TaskRow.completed r'
                   = (if truthy (js_get "completed" [("title", JStr "A2")])
                      then 1 else 0)
                /\ (js_get "description" [("title", JStr "A2")] = JUndefined ->
                    TaskRow.description r' = None)
                /\ (js_get "completed" [("title", JStr "A2")] = JUndefined ->
                    TaskRow.completed r' = 0).
Proof.
  apply (put_task_overwrites_omitted_fields tick next_id "R"
           [("title", JStr "A2")] (world_of [task_R_done] []) task_R_done "A2").
  - reflexivity.
  - reflexivity.
  - left. reflexivity.
  - left. reflexivity.
Defined.

(** X18. [DELETE /:id] answers 404 and changes nothing when no live task has
    the identifier.  For a live task it answers 204; after that [GET /:id]
    answers 404, a second [DELETE /:id] answers 404 and changes nothing, and
    [GET /] lists no task of the identifier. *)
Theorem delete_task_route
        (clock : nat -> Date) (uuidv4 : nat -> string)
        (id : string) (w : World) :
  ((forall r, In r (tasks w) -> TaskRow.id r = id ->
              TaskRow.is_deleted r <> 0) ->
   delete_task clock uuidv4 id w
   = (mkHttp 404 (JsonError "Task not found"), w))
  /\ (forall existing,
         select_live_task id (tasks w) = Some existing ->
         exists w',
           delete_task clock uuidv4 id w = (mkHttp 204 SendNothing, w')
           /\ get_task id w' = mkHttp 404 (JsonError "Task not found")
           /\ delete_task clock uuidv4 id w'
              = (mkHttp 404 (JsonError "Task not found"), w')
           /\ exists all, get_tasks w' = mkHttp 200 (JsonTasks all)
                          /\ forall t, In t all -> Task.id t <> id).
Proof.
  split.
  - intros Hnone. unfold delete_task, deleteTask.
    now rewrite (select_live_task_none id (tasks w) Hnone).
  - intros existing Hlive.
    destruct (deleteTask_found clock uuidv4 id w existing Hlive)
      as (Hres & Htasks & _).
    unfold delete_task.
    destruct (deleteTask clock uuidv4 id w) as [ok w'] eqn:Hdel.
    cbn [fst snd] in *. subst ok. exists w'.
    assert (Hflag : forall r', In r' (tasks w') -> TaskRow.id r' = id ->
                               TaskRow.is_deleted r' = 1).
    { intros r' Hr' Hid. rewrite Htasks in Hr'.
      apply update_tasks_hit in Hr'; trivial.
      now destruct Hr' as (r & _ & _ & ->). }
    split; [reflexivity|]. split; [|split].
    + unfold get_task. now rewrite (getTask_flagged id w' Hflag).
    + unfold deleteTask. rewrite select_live_task_none; [reflexivity|].
      intros r Hr Hid. rewrite (Hflag r Hr Hid). discriminate.
    + exists (getAllTasks w'). split; [reflexivity|].
      now apply getAllTasks_flagged.
Qed.

Lemma delete_task_route_witness :
  let w := world_of [task_R_done; task_D] [] in
  delete_task tick next_id "D" w = (mkHttp 404 (JsonError "Task not found"), w)
  /\ exists w',
       delete_task tick next_id "R" w = (mkHttp 204 SendNothing, w')
       /\ get_task "R" w' = mkHttp 404 (JsonError "Task not found")
       /\ delete_task tick next_id "R" w'
          = (mkHttp 404 (JsonError "Task not found"), w')
       /\ exists all, get_tasks w' = mkHttp 200 (JsonTasks all)
                      /\ forall t, In t all -> Task.id t <> "R".
Proof.
  cbv zeta.
  destruct (delete_task_route tick next_id "D"
              (world_of [task_R_done; task_D] [])) as [Hmissing _].
  destruct (delete_task_route tick next_id "R"
              (world_of [task_R_done; task_D] [])) as [_ Hlive].
  split.
  - apply Hmissing. intros r [<-|[<-|[]]]; simpl; intros H; [discriminate H|lia].
  - apply (Hlive task_R_done). reflexivity.
Defined.

(** ** The status route *)

Lemma max_text_bounds (a s : string) :
  String.leb a (max_text a s) = true /\ String.leb s (max_text a s) = true
  /\ (max_text a s = a \/ max_text a s = s).
Proof.
  unfold max_text. destruct (String.leb a s) eqn:Hle.
  - repeat split; [exact Hle|apply string_leb_refl|now right].
  - repeat split; [apply string_leb_refl| |now left].
    destruct (String.leb_total a s); congruence.
Qed.

Lemma max_last_synced_at_from (rows : list TaskRow.t) :
  forall acc,
    let step := fun acc r =>
                  match TaskRow.last_synced_at r with
                  | None => acc
                  | Some s =>
                      match acc with
                      | None => Some s
                      | Some m => Some (max_text m s)
                      end
                  end in
    let top := fold_left step rows acc in
    ((acc = None /\ forall r, In r rows -> TaskRow.last_synced_at r = None) ->
     top = None)
    /\ forall m, top = Some m ->
                 (acc = Some m
                  \/ exists r, In r rows /\ TaskRow.last_synced_at r = Some m)
                 /\ (forall a, acc = Some a -> String.leb a m = true)
                 /\ (forall r s, In r rows ->
                                 TaskRow.last_synced_at r = Some s ->
                                 String.leb s m = true).
Proof.
  induction rows as [|r rows IH]; intros acc; cbv zeta.
  - simpl. split; [tauto|].
    intros m ->. split; [now left|]. split.
    + intros a Ha. inversion Ha. apply string_leb_refl.
    + intros r s [].
  - cbn [fold_left].
    destruct (TaskRow.last_synced_at r) as [s|] eqn:Hr.
    + set (acc' := match acc with
                   | Some m => Some (max_text m s)
                   | None => Some s
                   end).
      destruct (IH acc') as [_ Hsome]. split.
      * intros [_ Hall]. rewrite (Hall r (or_introl eq_refl)) in Hr.
        discriminate.
      * intros m Hm. destruct (Hsome m Hm) as (Hfrom & Hacc & Hrows).
        assert (Hs : String.leb s m = true
                     /\ forall a, acc = Some a -> String.leb a m = true).
        { unfold acc' in Hacc. destruct acc as [a|].
          - destruct (max_text_bounds a s) as (Ha & Hs & _).
            pose proof (Hacc _ eq_refl) as Htop. split.
            + eapply string_leb_trans; eassumption.
            + intros a' Ha'. inversion Ha'; subst.
              eapply string_leb_trans; eassumption.
          - split; [now apply Hacc|discriminate]. }
        destruct Hs as [Hs Ha]. split; [|split; [exact Ha|]].
        -- destruct Hfrom as [Hfrom|(r0 & Hin & Hr0)].
           ++ unfold acc' in Hfrom. destruct acc as [a|].
              ** inversion Hfrom as [Hmax].
                 destruct (max_text_bounds a s) as (_ & _ & [He|He]).
                 --- left. congruence.
                 --- right. exists r. split; [now left|]. congruence.
              ** right. exists r. split; [now left|]. congruence.
           ++ right. exists r0. split; [now right|exact Hr0].
        -- intros r0 s0 [<-|Hin] Hs0.
           ++ rewrite Hr in Hs0. inversion Hs0; subst. exact Hs.
           ++ now apply (Hrows r0).
    + destruct (IH acc) as [Hnone Hsome]. split.
      * intros [Hacc Hall]. apply Hnone. split; [exact Hacc|].
        intros r0 Hin. apply Hall. now right.
      * intros m Hm. destruct (Hsome m Hm) as (Hfrom & Hacc & Hrows).
        split; [|split; [exact Hacc|]].
        -- destruct Hfrom as [Hfrom|(r0 & Hin & Hr0)]; [now left|].
           right. exists r0. split; [now right|exact Hr0].
        -- intros r0 s0 [<-|Hin] Hs0; [congruence|now apply (Hrows r0)].
Qed.

Lemma max_last_synced_at_some (rows : list TaskRow.t) :
  forall acc,
    (acc <> None
     \/ exists r s, In r rows /\ TaskRow.last_synced_at r = Some s) ->
    fold_left
      (fun acc r =>
         match TaskRow.last_synced_at r with
         | None => acc
         | Some s =>
             match acc with
             | None => Some s
             | Some m => Some (max_text m s)
             end
         end)
      rows acc <> None.
Proof.
  induction rows as [|r rows IH]; intros acc Hcase; cbn [fold_left].
  - destruct Hcase as [Hacc|(r & s & [] & _)]. exact Hacc.
  - apply IH.
    destruct (TaskRow.last_synced_at r) as [s|] eqn:Hr.
    + left. destruct acc; discriminate.
    + destruct Hcase as [Hacc|(r0 & s0 & [<-|Hin] & Hs0)].
      * now left.
      * congruence.
      * right. eauto.
Qed.

Lemma string_leb_empty (s : string) :
  String.leb s EmptyString = true -> s = EmptyString.
Proof.
  destruct s; [reflexivity|]. intros H. discriminate H.
Qed.

(** X19. [GET /status] answers 200 with: as pending count the number of task
    rows whose state is [pending] or [error], deleted ones included; as queue
    size that same number, whatever the queue holds; the outcome of the
    connectivity check; and as last sync instant the greatest
    [last_synced_at] stored: null when no task has one, an instant when some
    task has a non-empty one, and then one that a task holds and that no
    stored one exceeds. *)
Theorem get_status_reports (health : string + jsobj) (w : World) :
  exists st,
    get_status health w = mkHttp 200 (JsonStatus st)
    /\ pending_sync_count st
       = length (filter (fun r => String.eqb (TaskRow.sync_status r) "pending"
                                  || String.eqb (TaskRow.sync_status r) "error")
                        (tasks w))
    /\ sync_queue_size st = pending_sync_count st
    /\ (forall qs, get_status health (with_sync_queue qs w)
                   = get_status health w)
    /\ is_online st = checkConnectivity health
    /\ ((forall r, In r (tasks w) -> TaskRow.last_synced_at r = None) ->
        last_sync_timestamp st = None)
    /\ (forall r s, In r (tasks w) -> TaskRow.last_synced_at r = Some s ->
                    s <> EmptyString ->
                    exists m, last_sync_timestamp st = Some m)
    /\ (forall m, last_sync_timestamp st = Some m ->
                  (exists r, In r (tasks w)
                             /\ TaskRow.last_synced_at r = Some m)
                  /\ forall r s, In r (tasks w) ->
                                 TaskRow.last_synced_at r = Some s ->
                                 String.leb s m = true).
Proof.
  eexists. split; [reflexivity|]. cbn [pending_sync_count sync_queue_size
                                       is_online last_sync_timestamp].
  destruct (max_last_synced_at_from (tasks w) None) as [Hnone Hsome].
  cbv zeta in Hnone, Hsome.
  split; [unfold getTasksNeedingSync; now rewrite length_map|].
  split; [reflexivity|]. split; [reflexivity|]. split; [reflexivity|].
  split; [|split].
  - intros Hall. unfold select_max_last_synced_at.
    rewrite Hnone; [reflexivity|now split].
  - intros r s Hin Hr Hs. unfold or_null, select_max_last_synced_at.
    pose proof (max_last_synced_at_some (tasks w) None) as Htop.
    destruct (fold_left _ (tasks w) None) as [top|] eqn:Hfold.
    + destruct (Hsome top eq_refl) as (_ & _ & Hrows).
      destruct (String.eqb_spec top EmptyString) as [->|Hne]; [|eauto].
      exfalso. apply Hs, string_leb_empty. now apply (Hrows r).
    + exfalso. apply Htop; [|reflexivity]. right. eauto.
  - intros m Hm. unfold or_null, select_max_last_synced_at in Hm.
    destruct (fold_left _ (tasks w) None) as [top|] eqn:Htop; [|discriminate].
    destruct (String.eqb top EmptyString); [discriminate|].
    inversion Hm; subst.
    destruct (Hsome m eq_refl) as ([Hfrom|Hfrom] & _ & Hrows);
      [discriminate|]. now split.
Qed.

(** ** More on the steps of a pass *)

(** X20. [processBatch] posts exactly one request, carrying the batch, and
    never touches the queue.  It leaves every task's identifier, creation
    instant, deletion flag, sync state and last-synced instant as they were;
    a task row that no conflict outcome with resolved data names is left
    whole; and when the request throws no task row changes at all. *)
Theorem processBatch_touches_only_conflicts
        (clock : nat -> Date)
        (axios_post : nat -> BatchSyncRequest -> string + BatchSyncResponse)
        (batch : list SyncQueueItem.t) (w : World) :
  let res := processBatch clock axios_post batch w in
  http_log (snd res) = http_log w ++ [mkRequest batch (clock (clock_reads w))]
  /\ sync_queue (snd res) = sync_queue w
  /\ (forall r', In r' (tasks (snd res)) ->
                 exists r, In r (tasks w)
                           /\ TaskRow.id r' = TaskRow.id r
                           /\ TaskRow.created_at r' = TaskRow.created_at r
                           /\ TaskRow.is_deleted r' = TaskRow.is_deleted r
                           /\ TaskRow.sync_status r' = TaskRow.sync_status r
                           /\ TaskRow.last_synced_at r'
                              = TaskRow.last_synced_at r)
  /\ (forall r resp,
         fst res = inr resp ->
         In r (tasks w) ->
         (forall p, In p (processed_items resp) ->
                    Processed.status p = "conflict" ->
                    Processed.resolved_data p <> None ->
                    Processed.client_id p <> TaskRow.id r) ->
         In r (tasks (snd res)))
  /\ (forall message, fst res = inl message -> tasks (snd res) = tasks w).
Proof.
  cbv zeta.
  split; [apply processBatch_log|]. split; [apply processBatch_queue|].
  unfold processBatch, new_Date. simpl.
  destruct (axios_post _ _) as [m|resp]; cbn [fst snd tasks].
  - split; [|split; [discriminate|reflexivity]].
    intros r' Hr'. exists r'. now repeat split.
  - set (w2 := mkWorld _ _ _ _ _).
    assert (Hinv :
              (forall r', In r' (tasks (fold_left apply_conflict
                                                  (processed_items resp) w2)) ->
                          exists r, In r (tasks w)
                                    /\ TaskRow.id r' = TaskRow.id r
                                    /\ TaskRow.created_at r'
                                       = TaskRow.created_at r
                                    /\ TaskRow.is_deleted r'
                                       = TaskRow.is_deleted r
                                    /\ TaskRow.sync_status r'
                                       = TaskRow.sync_status r
                                    /\ TaskRow.last_synced_at r'
                                       = TaskRow.last_synced_at r)
              /\ (forall r, In r (tasks w) ->
                            (forall p, In p (processed_items resp) ->
                                       Processed.status p = "conflict" ->
                                       Processed.resolved_data p <> None ->
                                       Processed.client_id p <> TaskRow.id r) ->
                            In r (tasks (fold_left apply_conflict
                                                   (processed_items resp) w2)))).
    { apply (fold_left_inv
               (fun w' =>
                  (forall r', In r' (tasks w') ->
                              exists r, In r (tasks w)
                                        /\ TaskRow.id r' = TaskRow.id r
                                        /\ TaskRow.created_at r'
                                           = TaskRow.created_at r
                                        /\ TaskRow.is_deleted r'
                                           = TaskRow.is_deleted r
                                        /\ TaskRow.sync_status r'
                                           = TaskRow.sync_status r
                                        /\ TaskRow.last_synced_at r'
                                           = TaskRow.last_synced_at r)
                  /\ (forall r, In r (tasks w) ->
                                (forall p, In p (processed_items resp) ->
                                           Processed.status p = "conflict" ->
                                           Processed.resolved_data p <> None ->
                                           Processed.client_id p
                                           <> TaskRow.id r) ->
                                In r (tasks w')))).
      - intros a p Hp [Hcols Hwhole]. unfold apply_conflict.
        destruct (String.eqb_spec (Processed.status p) "conflict") as [Hc|Hc];
          [|now split].
        destruct (Processed.resolved_data p) as [d|] eqn:Hd; [|now split].
        cbn [tasks with_tasks]. split.
        + intros r' Hr'. apply in_map_iff in Hr'.
          destruct Hr' as (r1 & <- & Hr1).
          destruct (Hcols r1 Hr1) as (r & Hr & A & B & C & D & E).
          exists r. split; [exact Hr|].
          destruct (String.eqb _ _); now repeat split.
        + intros r Hr Huntouched.
          apply update_tasks_miss; trivial.
          * intros Heq. apply (Huntouched p Hp Hc); [|now symmetry].
            rewrite Hd. discriminate.
          * now apply Hwhole.
      - split.
        + intros r' Hr'. exists r'. now repeat split.
        + intros r Hr _. exact Hr. }
    destruct Hinv as [Hcols Hwhole].
    split; [exact Hcols|]. split; [|discriminate].
    intros r resp0 Hresp. inversion Hresp; subst. now apply Hwhole.
Qed.

(** X21. After the loop of [sync] has handled an outcome, the pending list
    follows it: with status [success] no task of the outcome's identifier is
    left in [getTasksNeedingSync]; with any other status every row of the
    identifier is in it, in state [error].  Either way the row's
    [last_synced_at] is set to the clock reading. *)
Theorem outcome_and_pending_list
        (clock : nat -> Date) (batch : list SyncQueueItem.t) (c : Tally)
        (w : World) (p : Processed.t) :
  let w' := snd (handle_processed clock batch (c, w) p) in
  (Processed.status p = "success" ->
   (forall t, In t (getTasksNeedingSync w') ->
              Task.id t <> Processed.client_id p)
   /\ forall r', In r' (tasks w') -> TaskRow.id r' = Processed.client_id p ->
                 TaskRow.last_synced_at r' = Some (clock (clock_reads w)))
  /\ (Processed.status p <> "success" ->
      forall r', In r' (tasks w') -> TaskRow.id r' = Processed.client_id p ->
                 In (TaskRow.to_task r') (getTasksNeedingSync w')
                 /\ Task.sync_status (TaskRow.to_task r') = Some "error"
                 /\ TaskRow.last_synced_at r'
                    = Some (clock (S (clock_reads w)))).
Proof.
  cbv zeta. unfold handle_processed. split.
  - intros Hs. rewrite Hs. cbn [String.eqb Ascii.eqb Bool.eqb snd]. split.
    + intros t Ht Hid. unfold getTasksNeedingSync in Ht.
      apply in_map_iff in Ht. destruct Ht as (r & <- & Hr).
      apply filter_In in Hr. destruct Hr as [Hr Hst].
      cbn [TaskRow.to_task Task.id] in Hid.
      destruct (updateSyncStatus_row clock _ _ _ _ _ Hr Hid) as (Hsynced & _).
      rewrite Hsynced in Hst. discriminate Hst.
    + intros r' Hr' Hid.
      now destruct (updateSyncStatus_row clock _ _ _ _ _ Hr' Hid) as (_ & ? & _).
  - intros Hs. apply String.eqb_neq in Hs. rewrite Hs.
    unfold new_Date. cbn [snd]. intros r' Hr' Hid.
    destruct (updateSyncStatus_row clock _ _ _ _ _ Hr' Hid) as (Herr & Hat & _).
    split; [|split].
    + unfold getTasksNeedingSync. apply in_map. apply filter_In.
      split; [exact Hr'|]. now rewrite Herr.
    + cbn. now rewrite Herr.
    + exact Hat.
Qed.

(** ** The sync route *)

(** X22. [POST /sync] is gated on the connectivity check: when the health
    request fails it answers 503, posts no batch and changes nothing; when it
    succeeds, with a positive batch size, it answers 200 with the summary of
    the pass, in which [errors] has one entry per failed item. *)
Theorem post_sync_gated
        (clock : nat -> Date)
        (axios_post : nat -> BatchSyncRequest -> string + BatchSyncResponse)
        (fuel : nat) (batchSize : Z) (w : World) :
  0 < batchSize ->
  (length (sync_queue w) <= fuel)%nat ->
  (forall message,
      post_sync clock axios_post (inl message) fuel batchSize w
      = Some (mkHttp 503 (JsonError "Service unavailable - offline"), w))
  /\ (forall health,
         exists syncResult w',
           post_sync clock axios_post (inr health) fuel batchSize w
           = Some (mkHttp 200 (JsonSyncResult syncResult), w')
           /\ sync clock axios_post fuel batchSize w = Some (syncResult, w')
           /\ length (errors syncResult) = failed_items syncResult).
Proof.
  intros Hbs Hfuel. split; [reflexivity|].
  intros health.
  destruct (sync_posts_every_batch clock axios_post fuel batchSize w Hbs Hfuel)
    as (result & w' & _ & _ & Hrun & _).
  exists result, w'. unfold post_sync. cbn [checkConnectivity negb].
  rewrite Hrun. split; [reflexivity|]. split; [reflexivity|].
  eapply sync_accounts. exact Hrun.
Qed.

Lemma post_sync_gated_witness :
  let w := world_of [task_R "pending"] [item_q1 0] in
  (forall message,
      post_sync tick offline (inl message) 1 50 w
      = Some (mkHttp 503 (JsonError "Service unavailable - offline"), w))
  /\ (forall health,
         exists syncResult w',
           post_sync tick offline (inr health) 1 50 w
           = Some (mkHttp 200 (JsonSyncResult syncResult), w')
           /\ sync tick offline 1 50 w = Some (syncResult, w')
           /\ length (errors syncResult) = failed_items syncResult).
Proof.
  apply (post_sync_gated tick offline 1 50
           (world_of [task_R "pending"] [item_q1 0])); simpl; lia.
Defined.
